(** * CTE segmentation and reconstruction of [SQLParser] (src/4.py)

    Shallow embedding of [SQLParser.parse_cte_sql] (the segmenter) and
    [SQLParser.build_executable_cte_sql] (the reconstructor), and of the
    parts of [SubQueryTool], [DBConnector] and [DBHistoryManager] that use
    them or work on connection URLs.

    A Python [str] is a list of code points ([N], 0..0x10FFFF).  The
    character classes the code relies on are tables of CPython 3.11
    (Unicode 14.0): [str.isspace] (which is also the class [\s] of [re]
    and what [str.strip] removes), the class [\w] of [re] on a [str]
    ([str.isalnum] or ['_']), [str.lower], [str.upper], and the characters
    [re.IGNORECASE] matches for the letters of the patterns.  The cursor
    [pos] of the segmenter is a [nat], an index into the stripped
    statement, as in the source; [sql[pos:]] is [drop pos sql]. *)

From Stdlib Require Import Ascii String List Lia.
From stdpp Require Import base gmap strings list pretty.
Import ListNotations.

Abbreviation str := (list N).

(** An ASCII literal as a [str]. *)
Definition codes (s : string) : str := map N_of_ascii (list_ascii_of_string s).

(** ** Python character classes *)

Local Open Scope N_scope.

Definition in_ranges (rs : list (N * N)) (c : N) : bool :=
  existsb (fun '(lo, hi) => (lo <=? c) && (c <=? hi)) rs.

(** The code points of a table of ranges, in order. *)
Definition enum_ranges (rs : list (N * N)) : list N :=
  flat_map (fun '(lo, hi) => map (fun k => lo + N.of_nat k) (seq 0 (S (N.to_nat (hi - lo))))) rs.

(** [str.isspace]: the code points with [isspace()] true. *)
Definition space_ranges : list (N * N) :=
  [(9, 13); (28, 32); (133, 133); (160, 160); (5760, 5760); (8192, 8202);
    (8232, 8233); (8239, 8239); (8287, 8287); (12288, 12288)].

Definition py_isspace (c : N) : bool := in_ranges space_ranges c.

(** The class [\w] of a [str] pattern: [isalnum()] or ['_']. *)
Definition word_ranges : list (N * N) :=
  [(48, 57); (65, 90); (95, 95); (97, 122); (170, 170); (178, 179);
    (181, 181); (185, 186); (188, 190); (192, 214); (216, 246); (248, 705);
    (710, 721); (736, 740); (748, 748); (750, 750); (880, 884); (886, 887);
    (890, 893); (895, 895); (902, 902); (904, 906); (908, 908); (910, 929);
    (931, 1013); (1015, 1153); (1162, 1327); (1329, 1366); (1369, 1369); (1376, 1416);
    (1488, 1514); (1519, 1522); (1568, 1610); (1632, 1641); (1646, 1647); (1649, 1747);
    (1749, 1749); (1765, 1766); (1774, 1788); (1791, 1791); (1808, 1808); (1810, 1839);
    (1869, 1957); (1969, 1969); (1984, 2026); (2036, 2037); (2042, 2042); (2048, 2069);
    (2074, 2074); (2084, 2084); (2088, 2088); (2112, 2136); (2144, 2154); (2160, 2183);
    (2185, 2190); (2208, 2249); (2308, 2361); (2365, 2365); (2384, 2384); (2392, 2401);
    (2406, 2415); (2417, 2432); (2437, 2444); (2447, 2448); (2451, 2472); (2474, 2480);
    (2482, 2482); (2486, 2489); (2493, 2493); (2510, 2510); (2524, 2525); (2527, 2529);
    (2534, 2545); (2548, 2553); (2556, 2556); (2565, 2570); (2575, 2576); (2579, 2600);
    (2602, 2608); (2610, 2611); (2613, 2614); (2616, 2617); (2649, 2652); (2654, 2654);
    (2662, 2671); (2674, 2676); (2693, 2701); (2703, 2705); (2707, 2728); (2730, 2736);
    (2738, 2739); (2741, 2745); (2749, 2749); (2768, 2768); (2784, 2785); (2790, 2799);
    (2809, 2809); (2821, 2828); (2831, 2832); (2835, 2856); (2858, 2864); (2866, 2867);
    (2869, 2873); (2877, 2877); (2908, 2909); (2911, 2913); (2918, 2927); (2929, 2935);
    (2947, 2947); (2949, 2954); (2958, 2960); (2962, 2965); (2969, 2970); (2972, 2972);
    (2974, 2975); (2979, 2980); (2984, 2986); (2990, 3001); (3024, 3024); (3046, 3058);
    (3077, 3084); (3086, 3088); (3090, 3112); (3114, 3129); (3133, 3133); (3160, 3162);
    (3165, 3165); (3168, 3169); (3174, 3183); (3192, 3198); (3200, 3200); (3205, 3212);
    (3214, 3216); (3218, 3240); (3242, 3251); (3253, 3257); (3261, 3261); (3293, 3294);
    (3296, 3297); (3302, 3311); (3313, 3314); (3332, 3340); (3342, 3344); (3346, 3386);
    (3389, 3389); (3406, 3406); (3412, 3414); (3416, 3425); (3430, 3448); (3450, 3455);
    (3461, 3478); (3482, 3505); (3507, 3515); (3517, 3517); (3520, 3526); (3558, 3567);
    (3585, 3632); (3634, 3635); (3648, 3654); (3664, 3673); (3713, 3714); (3716, 3716);
    (3718, 3722); (3724, 3747); (3749, 3749); (3751, 3760); (3762, 3763); (3773, 3773);
    (3776, 3780); (3782, 3782); (3792, 3801); (3804, 3807); (3840, 3840); (3872, 3891);
    (3904, 3911); (3913, 3948); (3976, 3980); (4096, 4138); (4159, 4169); (4176, 4181);
    (4186, 4189); (4193, 4193); (4197, 4198); (4206, 4208); (4213, 4225); (4238, 4238);
    (4240, 4249); (4256, 4293); (4295, 4295); (4301, 4301); (4304, 4346); (4348, 4680);
    (4682, 4685); (4688, 4694); (4696, 4696); (4698, 4701); (4704, 4744); (4746, 4749);
    (4752, 4784); (4786, 4789); (4792, 4798); (4800, 4800); (4802, 4805); (4808, 4822);
    (4824, 4880); (4882, 4885); (4888, 4954); (4969, 4988); (4992, 5007); (5024, 5109);
    (5112, 5117); (5121, 5740); (5743, 5759); (5761, 5786); (5792, 5866); (5870, 5880);
    (5888, 5905); (5919, 5937); (5952, 5969); (5984, 5996); (5998, 6000); (6016, 6067);
    (6103, 6103); (6108, 6108); (6112, 6121); (6128, 6137); (6160, 6169); (6176, 6264);
    (6272, 6276); (6279, 6312); (6314, 6314); (6320, 6389); (6400, 6430); (6470, 6509);
    (6512, 6516); (6528, 6571); (6576, 6601); (6608, 6618); (6656, 6678); (6688, 6740);
    (6784, 6793); (6800, 6809); (6823, 6823); (6917, 6963); (6981, 6988); (6992, 7001);
    (7043, 7072); (7086, 7141); (7168, 7203); (7232, 7241); (7245, 7293); (7296, 7304);
    (7312, 7354); (7357, 7359); (7401, 7404); (7406, 7411); (7413, 7414); (7418, 7418);
    (7424, 7615); (7680, 7957); (7960, 7965); (7968, 8005); (8008, 8013); (8016, 8023);
    (8025, 8025); (8027, 8027); (8029, 8029); (8031, 8061); (8064, 8116); (8118, 8124);
    (8126, 8126); (8130, 8132); (8134, 8140); (8144, 8147); (8150, 8155); (8160, 8172);
    (8178, 8180); (8182, 8188); (8304, 8305); (8308, 8313); (8319, 8329); (8336, 8348);
    (8450, 8450); (8455, 8455); (8458, 8467); (8469, 8469); (8473, 8477); (8484, 8484);
    (8486, 8486); (8488, 8488); (8490, 8493); (8495, 8505); (8508, 8511); (8517, 8521);
    (8526, 8526); (8528, 8585); (9312, 9371); (9450, 9471); (10102, 10131); (11264, 11492);
    (11499, 11502); (11506, 11507); (11517, 11517); (11520, 11557); (11559, 11559); (11565, 11565);
    (11568, 11623); (11631, 11631); (11648, 11670); (11680, 11686); (11688, 11694); (11696, 11702);
    (11704, 11710); (11712, 11718); (11720, 11726); (11728, 11734); (11736, 11742); (11823, 11823);
    (12293, 12295); (12321, 12329); (12337, 12341); (12344, 12348); (12353, 12438); (12445, 12447);
    (12449, 12538); (12540, 12543); (12549, 12591); (12593, 12686); (12690, 12693); (12704, 12735);
    (12784, 12799); (12832, 12841); (12872, 12879); (12881, 12895); (12928, 12937); (12977, 12991);
    (13312, 19903); (19968, 42124); (42192, 42237); (42240, 42508); (42512, 42539); (42560, 42606);
    (42623, 42653); (42656, 42735); (42775, 42783); (42786, 42888); (42891, 42954); (42960, 42961);
    (42963, 42963); (42965, 42969); (42994, 43009); (43011, 43013); (43015, 43018); (43020, 43042);
    (43056, 43061); (43072, 43123); (43138, 43187); (43216, 43225); (43250, 43255); (43259, 43259);
    (43261, 43262); (43264, 43301); (43312, 43334); (43360, 43388); (43396, 43442); (43471, 43481);
    (43488, 43492); (43494, 43518); (43520, 43560); (43584, 43586); (43588, 43595); (43600, 43609);
    (43616, 43638); (43642, 43642); (43646, 43695); (43697, 43697); (43701, 43702); (43705, 43709);
    (43712, 43712); (43714, 43714); (43739, 43741); (43744, 43754); (43762, 43764); (43777, 43782);
    (43785, 43790); (43793, 43798); (43808, 43814); (43816, 43822); (43824, 43866); (43868, 43881);
    (43888, 44002); (44016, 44025); (44032, 55203); (55216, 55238); (55243, 55291); (63744, 64109);
    (64112, 64217); (64256, 64262); (64275, 64279); (64285, 64285); (64287, 64296); (64298, 64310);
    (64312, 64316); (64318, 64318); (64320, 64321); (64323, 64324); (64326, 64433); (64467, 64829);
    (64848, 64911); (64914, 64967); (65008, 65019); (65136, 65140); (65142, 65276); (65296, 65305);
    (65313, 65338); (65345, 65370); (65382, 65470); (65474, 65479); (65482, 65487); (65490, 65495);
    (65498, 65500); (65536, 65547); (65549, 65574); (65576, 65594); (65596, 65597); (65599, 65613);
    (65616, 65629); (65664, 65786); (65799, 65843); (65856, 65912); (65930, 65931); (66176, 66204);
    (66208, 66256); (66273, 66299); (66304, 66339); (66349, 66378); (66384, 66421); (66432, 66461);
    (66464, 66499); (66504, 66511); (66513, 66517); (66560, 66717); (66720, 66729); (66736, 66771);
    (66776, 66811); (66816, 66855); (66864, 66915); (66928, 66938); (66940, 66954); (66956, 66962);
    (66964, 66965); (66967, 66977); (66979, 66993); (66995, 67001); (67003, 67004); (67072, 67382);
    (67392, 67413); (67424, 67431); (67456, 67461); (67463, 67504); (67506, 67514); (67584, 67589);
    (67592, 67592); (67594, 67637); (67639, 67640); (67644, 67644); (67647, 67669); (67672, 67702);
    (67705, 67742); (67751, 67759); (67808, 67826); (67828, 67829); (67835, 67867); (67872, 67897);
    (67968, 68023); (68028, 68047); (68050, 68096); (68112, 68115); (68117, 68119); (68121, 68149);
    (68160, 68168); (68192, 68222); (68224, 68255); (68288, 68295); (68297, 68324); (68331, 68335);
    (68352, 68405); (68416, 68437); (68440, 68466); (68472, 68497); (68521, 68527); (68608, 68680);
    (68736, 68786); (68800, 68850); (68858, 68899); (68912, 68921); (69216, 69246); (69248, 69289);
    (69296, 69297); (69376, 69415); (69424, 69445); (69457, 69460); (69488, 69505); (69552, 69579);
    (69600, 69622); (69635, 69687); (69714, 69743); (69745, 69746); (69749, 69749); (69763, 69807);
    (69840, 69864); (69872, 69881); (69891, 69926); (69942, 69951); (69956, 69956); (69959, 69959);
    (69968, 70002); (70006, 70006); (70019, 70066); (70081, 70084); (70096, 70106); (70108, 70108);
    (70113, 70132); (70144, 70161); (70163, 70187); (70272, 70278); (70280, 70280); (70282, 70285);
    (70287, 70301); (70303, 70312); (70320, 70366); (70384, 70393); (70405, 70412); (70415, 70416);
    (70419, 70440); (70442, 70448); (70450, 70451); (70453, 70457); (70461, 70461); (70480, 70480);
    (70493, 70497); (70656, 70708); (70727, 70730); (70736, 70745); (70751, 70753); (70784, 70831);
    (70852, 70853); (70855, 70855); (70864, 70873); (71040, 71086); (71128, 71131); (71168, 71215);
    (71236, 71236); (71248, 71257); (71296, 71338); (71352, 71352); (71360, 71369); (71424, 71450);
    (71472, 71483); (71488, 71494); (71680, 71723); (71840, 71922); (71935, 71942); (71945, 71945);
    (71948, 71955); (71957, 71958); (71960, 71983); (71999, 71999); (72001, 72001); (72016, 72025);
    (72096, 72103); (72106, 72144); (72161, 72161); (72163, 72163); (72192, 72192); (72203, 72242);
    (72250, 72250); (72272, 72272); (72284, 72329); (72349, 72349); (72368, 72440); (72704, 72712);
    (72714, 72750); (72768, 72768); (72784, 72812); (72818, 72847); (72960, 72966); (72968, 72969);
    (72971, 73008); (73030, 73030); (73040, 73049); (73056, 73061); (73063, 73064); (73066, 73097);
    (73112, 73112); (73120, 73129); (73440, 73458); (73648, 73648); (73664, 73684); (73728, 74649);
    (74752, 74862); (74880, 75075); (77712, 77808); (77824, 78894); (82944, 83526); (92160, 92728);
    (92736, 92766); (92768, 92777); (92784, 92862); (92864, 92873); (92880, 92909); (92928, 92975);
    (92992, 92995); (93008, 93017); (93019, 93025); (93027, 93047); (93053, 93071); (93760, 93846);
    (93952, 94026); (94032, 94032); (94099, 94111); (94176, 94177); (94179, 94179); (94208, 100343);
    (100352, 101589); (101632, 101640); (110576, 110579); (110581, 110587); (110589, 110590); (110592, 110882);
    (110928, 110930); (110948, 110951); (110960, 111355); (113664, 113770); (113776, 113788); (113792, 113800);
    (113808, 113817); (119520, 119539); (119648, 119672); (119808, 119892); (119894, 119964); (119966, 119967);
    (119970, 119970); (119973, 119974); (119977, 119980); (119982, 119993); (119995, 119995); (119997, 120003);
    (120005, 120069); (120071, 120074); (120077, 120084); (120086, 120092); (120094, 120121); (120123, 120126);
    (120128, 120132); (120134, 120134); (120138, 120144); (120146, 120485); (120488, 120512); (120514, 120538);
    (120540, 120570); (120572, 120596); (120598, 120628); (120630, 120654); (120656, 120686); (120688, 120712);
    (120714, 120744); (120746, 120770); (120772, 120779); (120782, 120831); (122624, 122654); (123136, 123180);
    (123191, 123197); (123200, 123209); (123214, 123214); (123536, 123565); (123584, 123627); (123632, 123641);
    (124896, 124902); (124904, 124907); (124909, 124910); (124912, 124926); (124928, 125124); (125127, 125135);
    (125184, 125251); (125259, 125259); (125264, 125273); (126065, 126123); (126125, 126127); (126129, 126132);
    (126209, 126253); (126255, 126269); (126464, 126467); (126469, 126495); (126497, 126498); (126500, 126500);
    (126503, 126503); (126505, 126514); (126516, 126519); (126521, 126521); (126523, 126523); (126530, 126530);
    (126535, 126535); (126537, 126537); (126539, 126539); (126541, 126543); (126545, 126546); (126548, 126548);
    (126551, 126551); (126553, 126553); (126555, 126555); (126557, 126557); (126559, 126559); (126561, 126562);
    (126564, 126564); (126567, 126570); (126572, 126578); (126580, 126583); (126585, 126588); (126590, 126590);
    (126592, 126601); (126603, 126619); (126625, 126627); (126629, 126633); (126635, 126651); (127232, 127244);
    (130032, 130041); (131072, 173791); (173824, 177976); (177984, 178205); (178208, 183969); (183984, 191456);
    (194560, 195101); (196608, 201546)].

Definition py_isword (c : N) : bool := in_ranges word_ranges c.

(** Case mappings.  A run [(lo, hi, step, t)] maps [lo + k * step] to
    [t + k * step] for [lo <= lo + k * step <= hi]; the first run that
    applies is used, and a code point no run or special entry maps is left
    unchanged.  The special entries map one code point to several. *)
Fixpoint case_lookup (tbl : list (N * N * N * N)) (c : N) : option N :=
  match tbl with
  | [] => None
  | (lo, hi, step, t) :: rest =>
      if (lo <=? c) && (c <=? hi) && ((c - lo) mod step =? 0) then Some (t + (c - lo))
      else case_lookup rest c
  end.

Fixpoint special_lookup (tbl : list (N * list N)) (c : N) : option (list N) :=
  match tbl with
  | [] => None
  | (d, l) :: rest => if c =? d then Some l else special_lookup rest c
  end.

Definition case_map (special : list (N * list N)) (tbl : list (N * N * N * N)) (c : N) : list N :=
  match special_lookup special c with
  | Some l => l
  | None => match case_lookup tbl c with Some d => [d] | None => [c] end
  end.

Definition lower_special : list (N * list N) :=
  [(304, [105; 775])].

Definition lower_table : list (N * N * N * N) :=
  [(65, 90, 1, 97); (192, 214, 1, 224); (216, 222, 1, 248); (256, 302, 2, 257);
    (306, 310, 2, 307); (313, 327, 2, 314); (330, 374, 2, 331); (376, 376, 1, 255);
    (377, 381, 2, 378); (385, 385, 1, 595); (386, 388, 2, 387); (390, 390, 1, 596);
    (391, 391, 1, 392); (393, 394, 1, 598); (395, 395, 1, 396); (398, 398, 1, 477);
    (399, 399, 1, 601); (400, 400, 1, 603); (401, 401, 1, 402); (403, 403, 1, 608);
    (404, 404, 1, 611); (406, 406, 1, 617); (407, 407, 1, 616); (408, 408, 1, 409);
    (412, 412, 1, 623); (413, 413, 1, 626); (415, 415, 1, 629); (416, 420, 2, 417);
    (422, 422, 1, 640); (423, 423, 1, 424); (425, 425, 1, 643); (428, 428, 1, 429);
    (430, 430, 1, 648); (431, 431, 1, 432); (433, 434, 1, 650); (435, 437, 2, 436);
    (439, 439, 1, 658); (440, 440, 1, 441); (444, 444, 1, 445); (452, 452, 1, 454);
    (453, 453, 1, 454); (455, 455, 1, 457); (456, 456, 1, 457); (458, 458, 1, 460);
    (459, 475, 2, 460); (478, 494, 2, 479); (497, 497, 1, 499); (498, 500, 2, 499);
    (502, 502, 1, 405); (503, 503, 1, 447); (504, 542, 2, 505); (544, 544, 1, 414);
    (546, 562, 2, 547); (570, 570, 1, 11365); (571, 571, 1, 572); (573, 573, 1, 410);
    (574, 574, 1, 11366); (577, 577, 1, 578); (579, 579, 1, 384); (580, 580, 1, 649);
    (581, 581, 1, 652); (582, 590, 2, 583); (880, 882, 2, 881); (886, 886, 1, 887);
    (895, 895, 1, 1011); (902, 902, 1, 940); (904, 906, 1, 941); (908, 908, 1, 972);
    (910, 911, 1, 973); (913, 929, 1, 945); (931, 939, 1, 963); (975, 975, 1, 983);
    (984, 1006, 2, 985); (1012, 1012, 1, 952); (1015, 1015, 1, 1016); (1017, 1017, 1, 1010);
    (1018, 1018, 1, 1019); (1021, 1023, 1, 891); (1024, 1039, 1, 1104); (1040, 1071, 1, 1072);
    (1120, 1152, 2, 1121); (1162, 1214, 2, 1163); (1216, 1216, 1, 1231); (1217, 1229, 2, 1218);
    (1232, 1326, 2, 1233); (1329, 1366, 1, 1377); (4256, 4293, 1, 11520); (4295, 4295, 1, 11559);
    (4301, 4301, 1, 11565); (5024, 5103, 1, 43888); (5104, 5109, 1, 5112); (7312, 7354, 1, 4304);
    (7357, 7359, 1, 4349); (7680, 7828, 2, 7681); (7838, 7838, 1, 223); (7840, 7934, 2, 7841);
    (7944, 7951, 1, 7936); (7960, 7965, 1, 7952); (7976, 7983, 1, 7968); (7992, 7999, 1, 7984);
    (8008, 8013, 1, 8000); (8025, 8031, 2, 8017); (8040, 8047, 1, 8032); (8072, 8079, 1, 8064);
    (8088, 8095, 1, 8080); (8104, 8111, 1, 8096); (8120, 8121, 1, 8112); (8122, 8123, 1, 8048);
    (8124, 8124, 1, 8115); (8136, 8139, 1, 8050); (8140, 8140, 1, 8131); (8152, 8153, 1, 8144);
    (8154, 8155, 1, 8054); (8168, 8169, 1, 8160); (8170, 8171, 1, 8058); (8172, 8172, 1, 8165);
    (8184, 8185, 1, 8056); (8186, 8187, 1, 8060); (8188, 8188, 1, 8179); (8486, 8486, 1, 969);
    (8490, 8490, 1, 107); (8491, 8491, 1, 229); (8498, 8498, 1, 8526); (8544, 8559, 1, 8560);
    (8579, 8579, 1, 8580); (9398, 9423, 1, 9424); (11264, 11311, 1, 11312); (11360, 11360, 1, 11361);
    (11362, 11362, 1, 619); (11363, 11363, 1, 7549); (11364, 11364, 1, 637); (11367, 11371, 2, 11368);
    (11373, 11373, 1, 593); (11374, 11374, 1, 625); (11375, 11375, 1, 592); (11376, 11376, 1, 594);
    (11378, 11378, 1, 11379); (11381, 11381, 1, 11382); (11390, 11391, 1, 575); (11392, 11490, 2, 11393);
    (11499, 11501, 2, 11500); (11506, 11506, 1, 11507); (42560, 42604, 2, 42561); (42624, 42650, 2, 42625);
    (42786, 42798, 2, 42787); (42802, 42862, 2, 42803); (42873, 42875, 2, 42874); (42877, 42877, 1, 7545);
    (42878, 42886, 2, 42879); (42891, 42891, 1, 42892); (42893, 42893, 1, 613); (42896, 42898, 2, 42897);
    (42902, 42920, 2, 42903); (42922, 42922, 1, 614); (42923, 42923, 1, 604); (42924, 42924, 1, 609);
    (42925, 42925, 1, 620); (42926, 42926, 1, 618); (42928, 42928, 1, 670); (42929, 42929, 1, 647);
    (42930, 42930, 1, 669); (42931, 42931, 1, 43859); (42932, 42946, 2, 42933); (42948, 42948, 1, 42900);
    (42949, 42949, 1, 642); (42950, 42950, 1, 7566); (42951, 42953, 2, 42952); (42960, 42960, 1, 42961);
    (42966, 42968, 2, 42967); (42997, 42997, 1, 42998); (65313, 65338, 1, 65345); (66560, 66599, 1, 66600);
    (66736, 66771, 1, 66776); (66928, 66938, 1, 66967); (66940, 66954, 1, 66979); (66956, 66962, 1, 66995);
    (66964, 66965, 1, 67003); (68736, 68786, 1, 68800); (71840, 71871, 1, 71872); (93760, 93791, 1, 93792);
    (125184, 125217, 1, 125218)].

Definition upper_special : list (N * list N) :=
  [(223, [83; 83]); (329, [700; 78]); (496, [74; 780]); (912, [921; 776; 769]);
    (944, [933; 776; 769]); (1415, [1333; 1362]); (7830, [72; 817]); (7831, [84; 776]);
    (7832, [87; 778]); (7833, [89; 778]); (7834, [65; 702]); (8016, [933; 787]);
    (8018, [933; 787; 768]); (8020, [933; 787; 769]); (8022, [933; 787; 834]); (8064, [7944; 921]);
    (8065, [7945; 921]); (8066, [7946; 921]); (8067, [7947; 921]); (8068, [7948; 921]);
    (8069, [7949; 921]); (8070, [7950; 921]); (8071, [7951; 921]); (8072, [7944; 921]);
    (8073, [7945; 921]); (8074, [7946; 921]); (8075, [7947; 921]); (8076, [7948; 921]);
    (8077, [7949; 921]); (8078, [7950; 921]); (8079, [7951; 921]); (8080, [7976; 921]);
    (8081, [7977; 921]); (8082, [7978; 921]); (8083, [7979; 921]); (8084, [7980; 921]);
    (8085, [7981; 921]); (8086, [7982; 921]); (8087, [7983; 921]); (8088, [7976; 921]);
    (8089, [7977; 921]); (8090, [7978; 921]); (8091, [7979; 921]); (8092, [7980; 921]);
    (8093, [7981; 921]); (8094, [7982; 921]); (8095, [7983; 921]); (8096, [8040; 921]);
    (8097, [8041; 921]); (8098, [8042; 921]); (8099, [8043; 921]); (8100, [8044; 921]);
    (8101, [8045; 921]); (8102, [8046; 921]); (8103, [8047; 921]); (8104, [8040; 921]);
    (8105, [8041; 921]); (8106, [8042; 921]); (8107, [8043; 921]); (8108, [8044; 921]);
    (8109, [8045; 921]); (8110, [8046; 921]); (8111, [8047; 921]); (8114, [8122; 921]);
    (8115, [913; 921]); (8116, [902; 921]); (8118, [913; 834]); (8119, [913; 834; 921]);
    (8124, [913; 921]); (8130, [8138; 921]); (8131, [919; 921]); (8132, [905; 921]);
    (8134, [919; 834]); (8135, [919; 834; 921]); (8140, [919; 921]); (8146, [921; 776; 768]);
    (8147, [921; 776; 769]); (8150, [921; 834]); (8151, [921; 776; 834]); (8162, [933; 776; 768]);
    (8163, [933; 776; 769]); (8164, [929; 787]); (8166, [933; 834]); (8167, [933; 776; 834]);
    (8178, [8186; 921]); (8179, [937; 921]); (8180, [911; 921]); (8182, [937; 834]);
    (8183, [937; 834; 921]); (8188, [937; 921]); (64256, [70; 70]); (64257, [70; 73]);
    (64258, [70; 76]); (64259, [70; 70; 73]); (64260, [70; 70; 76]); (64261, [83; 84]);
    (64262, [83; 84]); (64275, [1348; 1350]); (64276, [1348; 1333]); (64277, [1348; 1339]);
    (64278, [1358; 1350]); (64279, [1348; 1341])].

Definition upper_table : list (N * N * N * N) :=
  [(97, 122, 1, 65); (181, 181, 1, 924); (224, 246, 1, 192); (248, 254, 1, 216);
    (255, 255, 1, 376); (257, 303, 2, 256); (305, 305, 1, 73); (307, 311, 2, 306);
    (314, 328, 2, 313); (331, 375, 2, 330); (378, 382, 2, 377); (383, 383, 1, 83);
    (384, 384, 1, 579); (387, 389, 2, 386); (392, 392, 1, 391); (396, 396, 1, 395);
    (402, 402, 1, 401); (405, 405, 1, 502); (409, 409, 1, 408); (410, 410, 1, 573);
    (414, 414, 1, 544); (417, 421, 2, 416); (424, 424, 1, 423); (429, 429, 1, 428);
    (432, 432, 1, 431); (436, 438, 2, 435); (441, 441, 1, 440); (445, 445, 1, 444);
    (447, 447, 1, 503); (453, 453, 1, 452); (454, 454, 1, 452); (456, 456, 1, 455);
    (457, 457, 1, 455); (459, 459, 1, 458); (460, 460, 1, 458); (462, 476, 2, 461);
    (477, 477, 1, 398); (479, 495, 2, 478); (498, 498, 1, 497); (499, 499, 1, 497);
    (501, 501, 1, 500); (505, 543, 2, 504); (547, 563, 2, 546); (572, 572, 1, 571);
    (575, 576, 1, 11390); (578, 578, 1, 577); (583, 591, 2, 582); (592, 592, 1, 11375);
    (593, 593, 1, 11373); (594, 594, 1, 11376); (595, 595, 1, 385); (596, 596, 1, 390);
    (598, 599, 1, 393); (601, 601, 1, 399); (603, 603, 1, 400); (604, 604, 1, 42923);
    (608, 608, 1, 403); (609, 609, 1, 42924); (611, 611, 1, 404); (613, 613, 1, 42893);
    (614, 614, 1, 42922); (616, 616, 1, 407); (617, 617, 1, 406); (618, 618, 1, 42926);
    (619, 619, 1, 11362); (620, 620, 1, 42925); (623, 623, 1, 412); (625, 625, 1, 11374);
    (626, 626, 1, 413); (629, 629, 1, 415); (637, 637, 1, 11364); (640, 640, 1, 422);
    (642, 642, 1, 42949); (643, 643, 1, 425); (647, 647, 1, 42929); (648, 648, 1, 430);
    (649, 649, 1, 580); (650, 651, 1, 433); (652, 652, 1, 581); (658, 658, 1, 439);
    (669, 669, 1, 42930); (670, 670, 1, 42928); (837, 837, 1, 921); (881, 883, 2, 880);
    (887, 887, 1, 886); (891, 893, 1, 1021); (940, 940, 1, 902); (941, 943, 1, 904);
    (945, 961, 1, 913); (962, 962, 1, 931); (963, 971, 1, 931); (972, 972, 1, 908);
    (973, 974, 1, 910); (976, 976, 1, 914); (977, 977, 1, 920); (981, 981, 1, 934);
    (982, 982, 1, 928); (983, 983, 1, 975); (985, 1007, 2, 984); (1008, 1008, 1, 922);
    (1009, 1009, 1, 929); (1010, 1010, 1, 1017); (1011, 1011, 1, 895); (1013, 1013, 1, 917);
    (1016, 1016, 1, 1015); (1019, 1019, 1, 1018); (1072, 1103, 1, 1040); (1104, 1119, 1, 1024);
    (1121, 1153, 2, 1120); (1163, 1215, 2, 1162); (1218, 1230, 2, 1217); (1231, 1231, 1, 1216);
    (1233, 1327, 2, 1232); (1377, 1414, 1, 1329); (4304, 4346, 1, 7312); (4349, 4351, 1, 7357);
    (5112, 5117, 1, 5104); (7296, 7296, 1, 1042); (7297, 7297, 1, 1044); (7298, 7298, 1, 1054);
    (7299, 7300, 1, 1057); (7301, 7301, 1, 1058); (7302, 7302, 1, 1066); (7303, 7303, 1, 1122);
    (7304, 7304, 1, 42570); (7545, 7545, 1, 42877); (7549, 7549, 1, 11363); (7566, 7566, 1, 42950);
    (7681, 7829, 2, 7680); (7835, 7835, 1, 7776); (7841, 7935, 2, 7840); (7936, 7943, 1, 7944);
    (7952, 7957, 1, 7960); (7968, 7975, 1, 7976); (7984, 7991, 1, 7992); (8000, 8005, 1, 8008);
    (8017, 8023, 2, 8025); (8032, 8039, 1, 8040); (8048, 8049, 1, 8122); (8050, 8053, 1, 8136);
    (8054, 8055, 1, 8154); (8056, 8057, 1, 8184); (8058, 8059, 1, 8170); (8060, 8061, 1, 8186);
    (8112, 8113, 1, 8120); (8126, 8126, 1, 921); (8144, 8145, 1, 8152); (8160, 8161, 1, 8168);
    (8165, 8165, 1, 8172); (8526, 8526, 1, 8498); (8560, 8575, 1, 8544); (8580, 8580, 1, 8579);
    (9424, 9449, 1, 9398); (11312, 11359, 1, 11264); (11361, 11361, 1, 11360); (11365, 11365, 1, 570);
    (11366, 11366, 1, 574); (11368, 11372, 2, 11367); (11379, 11379, 1, 11378); (11382, 11382, 1, 11381);
    (11393, 11491, 2, 11392); (11500, 11502, 2, 11499); (11507, 11507, 1, 11506); (11520, 11557, 1, 4256);
    (11559, 11559, 1, 4295); (11565, 11565, 1, 4301); (42561, 42605, 2, 42560); (42625, 42651, 2, 42624);
    (42787, 42799, 2, 42786); (42803, 42863, 2, 42802); (42874, 42876, 2, 42873); (42879, 42887, 2, 42878);
    (42892, 42892, 1, 42891); (42897, 42899, 2, 42896); (42900, 42900, 1, 42948); (42903, 42921, 2, 42902);
    (42933, 42947, 2, 42932); (42952, 42954, 2, 42951); (42961, 42961, 1, 42960); (42967, 42969, 2, 42966);
    (42998, 42998, 1, 42997); (43859, 43859, 1, 42931); (43888, 43967, 1, 5024); (65345, 65370, 1, 65313);
    (66600, 66639, 1, 66560); (66776, 66811, 1, 66736); (66967, 66977, 1, 66928); (66979, 66993, 1, 66940);
    (66995, 67001, 1, 66956); (67003, 67004, 1, 66964); (68800, 68850, 1, 68736); (71872, 71903, 1, 71840);
    (93792, 93823, 1, 93760); (125218, 125251, 1, 125184)].

(** [str.lower()] and [str.upper()]: one character may give several. *)
Definition py_lower_char (c : N) : list N := case_map lower_special lower_table c.
Definition py_lower (s : str) : str := flat_map py_lower_char s.

Definition py_upper_char (c : N) : list N := case_map upper_special upper_table c.
Definition py_upper (s : str) : str := flat_map py_upper_char s.

(** The code points a lower-case letter of a pattern compiled with
    [re.IGNORECASE] matches, for the letters of the two patterns
    ([with] and [as]): [i] also matches U+0130 and U+0131, and [s] also
    matches U+017F. *)
Definition ignorecase_class (lit : N) : list N :=
  if lit =? 105 then [73; 105; 304; 305]
  else if lit =? 115 then [83; 115; 383]
  else if (lit =? 97) || (lit =? 104) || (lit =? 116) || (lit =? 119) then [lit - 32; lit]
  else [lit].

Definition ci (c lit : N) : bool := existsb (N.eqb c) (ignorecase_class lit).

Local Close Scope N_scope.

(** ** String helpers *)

Fixpoint skip_while {A} (p : A -> bool) (s : list A) : list A :=
  match s with
  | c :: r => if p c then skip_while p r else s
  | [] => []
  end.

Fixpoint take_while {A} (p : A -> bool) (s : list A) : list A :=
  match s with
  | c :: r => if p c then c :: take_while p r else []
  | [] => []
  end.

(** [str.strip()]. *)
Definition lstrip (s : str) : str := skip_while py_isspace s.
Definition strip (s : str) : str := rev (lstrip (rev (lstrip s))).

(** [s.find(c)]: offset of the first occurrence, [None] for Python's -1. *)
Fixpoint find_char (c : N) (s : str) : option nat :=
  match s with
  | [] => None
  | d :: r => if N.eqb d c then Some 0 else option_map S (find_char c r)
  end.

(** [s.find(c, start)] for [start >= 0]: the search runs over
    [s[start:]], which is empty when [start >= len(s)]. *)
Definition find_from (c : N) (s : str) (start : nat) : option nat :=
  option_map (Nat.add start) (find_char c (drop start s)).

(** [s[i:j]] for [i, j >= 0]: empty when [j <= i]. *)
Definition slice (s : str) (i j : nat) : str := take (j - i) (drop i s).

(** [while pos < length and p(sql[pos]): pos += 1]. *)
Definition skip_from (p : N -> bool) (s : str) (pos : nat) : nat :=
  pos + length (take_while p (drop pos s)).

(** ** [re.search(r'\bwith\b', sql, re.IGNORECASE)]

    [with_at prev s] tests a match at the start of [s], [prev] being the
    character before it.  [search_with prev s i] returns [match.end()],
    [i] being the index of [s] in the statement. *)
Definition boundary_before (prev : option N) : bool :=
  match prev with None => true | Some p => negb (py_isword p) end.

Definition boundary_after (rest : str) : bool :=
  match rest with [] => true | c :: _ => negb (py_isword c) end.

Definition with_at (prev : option N) (s : str) : bool :=
  match s with
  | w :: i :: t :: h :: rest =>
      boundary_before prev && ci w 119 && ci i 105 && ci t 116 && ci h 104
      && boundary_after rest
  | _ => false
  end.

Fixpoint search_with (prev : option N) (s : str) (i : nat) : option nat :=
  if with_at prev s then Some (i + 4)
  else
    match s with
    | [] => None
    | c :: r => search_with (Some c) r (S i)
    end.

(** ** The regular expressions of the scan loop *)

(** [[a-zA-Z_]] and [[a-zA-Z0-9_]]. *)
Definition ident_start (c : N) : bool :=
  ((65 <=? c) && (c <=? 90))%N || (c =? 95)%N || ((97 <=? c) && (c <=? 122))%N.

Definition ident_char (c : N) : bool := ident_start c || ((48 <=? c) && (c <=? 57))%N.

(** [re.match(r'([a-zA-Z_][a-zA-Z0-9_] * )', sql[pos:])] (the star applies
    to the class): [group(1)], whose length is [match.end()]. *)
Definition match_ident (s : str) : option str :=
  match s with
  | c :: r => if ident_start c then Some (c :: take_while ident_char r) else None
  | [] => None
  end.

(** [re.match(r'(?i)as\s*\(', sql[pos:])]. *)
Definition as_paren (s : str) : bool :=
  match s with
  | a :: s' :: r =>
      ci a 97 && ci s' 115 &&
      match skip_while py_isspace r with
      | c :: _ => (c =? 40)%N
      | [] => false
      end
  | _ => false
  end.

(** [sql[pos] in " \n\t,"]. *)
Definition is_sep (c : N) : bool := ((c =? 32) || (c =? 10) || (c =? 9) || (c =? 44))%N.

(** The bracket-matching loop
    [while pos < length and bracket_count > 0: ...; pos += 1] run on
    [sql[pos:]]: the characters it steps over ([sql[start:pos]] at its
    end) and the rest. *)
Fixpoint scan_body (bracket_count : nat) (s : str) : str * str :=
  match s with
  | [] => ([], [])
  | c :: r =>
      match bracket_count with
      | 0 => ([], s)
      | S _ =>
          let bc := if (c =? 40)%N then S bracket_count
                    else if (c =? 41)%N then pred bracket_count
                    else bracket_count in
          let '(consumed, rest) := scan_body bc r in
          (c :: consumed, rest)
      end
  end.

(** ** [SQLParser.parse_cte_sql]

    One call of [cte_loop] is one iteration of [while pos < length]; the
    fuel bounds the number of iterations, and [None] is returned only when
    it runs out, which does not happen ([parse_cte_sql_total]).  The index
    of the opening parenthesis is searched in [sql.lower()], which can be
    longer than [sql] (U+0130 lowers to two characters), so it may differ
    from the index of that parenthesis in [sql].  When the search gives -1
    the source goes on with [start = pos = 0]. *)
Fixpoint cte_loop (fuel : nat) (sql : str) (pos : nat) (ctes : list (str * str))
  : option (list (str * str)) :=
  match fuel with
  | 0 => None
  | S fuel' =>
      if negb (pos <? length sql) then Some ctes
      else
        let pos := skip_from is_sep sql pos in
        match match_ident (drop pos sql) with
        | None => Some ctes                                   (* break *)
        | Some cte_name =>
            let pos := pos + length cte_name in
            let pos := skip_from py_isspace sql pos in
            if negb (as_paren (drop pos sql)) then Some ctes  (* break *)
            else
              (* pos = sql.lower().find("(", pos); start = pos + 1; pos += 1 *)
              let start := match find_from 40 (py_lower sql) pos with
                           | Some k => S k
                           | None => 0
                           end in
              let pos := start + length (fst (scan_body 1 (drop start sql))) in
              (* end = pos - 1; cte_sql = sql[start:end].strip() *)
              let cte_sql := strip (slice sql start (pos - 1)) in
              let ctes := ctes ++ [(cte_name, cte_sql)] in
              let pos := skip_from py_isspace sql pos in
              match sql !! pos with
              | Some c => if (c =? 44)%N then cte_loop fuel' sql pos ctes else Some ctes
              | None => Some ctes
              end
        end
  end.

Definition parse_cte_sql (sql : str) : option (list (str * str)) :=
  let sql := strip sql in
  match search_with None sql 0 with
  | None => Some []
  | Some pos => cte_loop (S (length sql)) sql pos []
  end.

(** ** [SQLParser.build_executable_cte_sql] *)

Definition NL : str := [10%N].

(** [f"{n} AS (\n{s}\n)"] *)
Definition render (n s : str) : str := n ++ codes " AS (" ++ NL ++ s ++ NL ++ codes ")".

(** [sep.join(parts)] *)
Fixpoint py_join (sep : str) (parts : list str) : str :=
  match parts with
  | [] => []
  | [p] => p
  | p :: ps => p ++ sep ++ py_join sep ps
  end.

Record build_state := BuildState {
  result : gmap str str;
  accumulated : list (str * str)
}.

Definition build_init : build_state := BuildState ∅ [].

(** One iteration of [for name, sql_body in ctes]. *)
Definition build_step (st : build_state) (cte : str * str) : build_state :=
  let '(name, sql_body) := cte in
  let accumulated := accumulated st ++ [(name, sql_body)] in
  let with_parts :=
    fold_left (fun with_parts '(n, s) => with_parts ++ [render n s]) accumulated [] in
  let full_sql :=
    codes "WITH" ++ NL ++ py_join (codes "," ++ NL) with_parts
    ++ NL ++ codes "SELECT * FROM " ++ name in
  BuildState (<[name := full_sql]> (result st)) accumulated.

Definition build_executable_cte_sql (ctes : list (str * str)) : gmap str str :=
  result (fold_left build_step ctes build_init).

(** The statement text described by the specification for a target [name]
    and the declarations [decls] it re-declares:
    "WITH\n" + the declarations "<n> AS (\n<b>\n)" joined by ",\n" +
    "\nSELECT * FROM <name>". *)
Fixpoint spec_decls (decls : list (str * str)) : str :=
  match decls with
  | [] => []
  | [(n, b)] => n ++ codes " AS (" ++ NL ++ b ++ NL ++ codes ")"
  | (n, b) :: ds => n ++ codes " AS (" ++ NL ++ b ++ NL ++ codes ")" ++ codes "," ++ NL ++ spec_decls ds
  end.

Definition spec_statement (decls : list (str * str)) (name : str) : str :=
  codes "WITH" ++ NL ++ spec_decls decls ++ NL ++ codes "SELECT * FROM " ++ name.

(** Number of occurrences of a character, and the balance condition of
    the specification: equal numbers of ["("] and [")"], and no prefix with
    more [")"] than ["("]. *)
Fixpoint count_char (c : N) (s : str) : nat :=
  match s with
  | [] => 0
  | d :: r => (if N.eqb d c then 1 else 0) + count_char c r
  end.

Definition balanced (s : str) : Prop :=
  count_char 40 s = count_char 41 s /\
  forall v u, s = v ++ u -> count_char 41 v <= count_char 40 v.

(** A newline as a [string], for writing expected statement texts. *)
Definition nl : string := String (ascii_of_nat 10) EmptyString.

(** The identifier grammar [[a-zA-Z_][a-zA-Z0-9_]*] as a test. *)
Definition is_ident (name : str) : bool :=
  match name with
  | c :: r => ident_start c && forallb ident_char r
  | [] => false
  end.

(** ** [SubQueryTool.parse_sql]

    The messages it shows, and the new value of [self.cte_dict].  The text
    is the content of the SQL widget.  [parse_cte_sql] is [None] only when
    its fuel runs out, which does not happen ([parse_cte_sql_total]); the
    source's list is then read as [[]]. *)
Inductive parse_sql_msg :=
| ParseEmptyWarning
| ParseNoSubqueries
| ParseSuccess (count : nat).

Definition parse_sql (text : str) (cte_dict : gmap str str) : gmap str str * parse_sql_msg :=
  let sql := strip text in
  match sql with
  | [] => (cte_dict, ParseEmptyWarning)
  | _ :: _ =>
      let cte_sql := default [] (parse_cte_sql sql) in
      let executable_cte_sql := build_executable_cte_sql cte_sql in
      if decide (executable_cte_sql = ∅) then (executable_cte_sql, ParseNoSubqueries)
      else (executable_cte_sql, ParseSuccess (size executable_cte_sql))
  end.

Local Open Scope N_scope.

(** ** [DBConnector.execute_sql]: the automatic row limit *)

Fixpoint is_prefix (p s : list N) : bool :=
  match p, s with
  | [], _ => true
  | x :: p', y :: s' => (x =? y) && is_prefix p' s'
  | _ :: _, [] => false
  end.

(** [p in s] for strings. *)
Fixpoint contains (p s : list N) : bool :=
  is_prefix p s || match s with [] => false | _ :: r => contains p r end.

(** [s.endswith(p)]. *)
Definition ends_with (p s : list N) : bool := is_prefix (rev p) (rev s).

(** [f" LIMIT {limit_rows}"]: a non-negative [int] in decimal. *)
Definition limit_clause (limit_rows : N) : str :=
  codes " LIMIT " ++ codes (pretty limit_rows).

(** The statement [execute_sql] passes to [cursor.execute]; the
    [disable_limit] argument is not read by the source. *)
Definition execute_sql_text (sql : str) (limit_rows : N) (disable_limit : bool) : str :=
  if negb (ends_with (codes "LIMIT") (py_upper (strip sql)))
     && negb (contains (codes "LIMIT") (py_upper sql))
  then sql ++ limit_clause limit_rows
  else sql.

(** [SubQueryTool.execute_cte] once a connection exists and a name is
    selected: [self.original_sql] and the statement passed to
    [cursor.execute] by [execute_sql(cte_sql, limit_rows=self.query_limit,
    disable_limit=True)]; [None] for the [KeyError] of
    [self.cte_dict[cte_name]]. *)
Definition execute_cte (cte_dict : gmap str str) (cte_name : str) (query_limit : N)
  : option (str * str) :=
  match cte_dict !! cte_name with
  | None => None
  | Some cte_sql => Some (strip cte_sql, execute_sql_text cte_sql query_limit true)
  end.

(** ** [DBHistoryManager]: connection URLs

    [quote_plus] and [unquote_plus] of [urllib.parse] act on any Python
    [str]; here a string is a list of code points ([N], 0..0x10FFFF) and
    a [bytes] object a list of numbers 0..255. *)
Abbreviation ustr := (list N).

Definition is_surrogate (c : N) : bool := (55296 <=? c) && (c <=? 57343).

(** One character of [str.encode('utf-8')] (errors='strict'): a lone
    surrogate raises [UnicodeEncodeError] ([None]). *)
Definition utf8_encode_char (c : N) : option (list N) :=
  if c <? 128 then Some [c]
  else if c <? 2048 then Some [192 + c / 64; 128 + c mod 64]
  else if c <? 65536 then
    if is_surrogate c then None
    else Some [224 + c / 4096; 128 + (c / 64) mod 64; 128 + c mod 64]
  else Some [240 + c / 262144; 128 + (c / 4096) mod 64; 128 + (c / 64) mod 64;
             128 + c mod 64].

Fixpoint utf8_encode (s : ustr) : option (list N) :=
  match s with
  | [] => Some []
  | c :: r =>
      match utf8_encode_char c, utf8_encode r with
      | Some b, Some bs => Some (b ++ bs)
      | _, _ => None
      end
  end.

Definition is_cont (b : N) : bool := (128 <=? b) && (b <=? 191).

(** [bytes.decode('utf-8', 'replace')]: each maximal ill-formed subpart
    (a lead byte with the valid continuation bytes that follow it, or a
    truncated sequence at the end) becomes one U+FFFD (65533). *)
Fixpoint utf8_decode (bs : list N) : ustr :=
  match bs with
  | [] => []
  | b1 :: r1 =>
      if b1 <? 128 then b1 :: utf8_decode r1
      else if (194 <=? b1) && (b1 <=? 223) then
        match r1 with
        | b2 :: r2 =>
            if is_cont b2 then ((b1 - 192) * 64 + (b2 - 128)) :: utf8_decode r2
            else 65533 :: utf8_decode r1
        | [] => [65533]
        end
      else if (224 <=? b1) && (b1 <=? 239) then
        let lo := if b1 =? 224 then 160 else 128 in
        let hi := if b1 =? 237 then 159 else 191 in
        match r1 with
        | b2 :: r2 =>
            if (lo <=? b2) && (b2 <=? hi) then
              match r2 with
              | b3 :: r3 =>
                  if is_cont b3
                  then (((b1 - 224) * 64 + (b2 - 128)) * 64 + (b3 - 128)) :: utf8_decode r3
                  else 65533 :: utf8_decode r2
              | [] => [65533]
              end
            else 65533 :: utf8_decode r1
        | [] => [65533]
        end
      else if (240 <=? b1) && (b1 <=? 244) then
        let lo := if b1 =? 240 then 144 else 128 in
        let hi := if b1 =? 244 then 143 else 191 in
        match r1 with
        | b2 :: r2 =>
            if (lo <=? b2) && (b2 <=? hi) then
              match r2 with
              | b3 :: r3 =>
                  if is_cont b3 then
                    match r3 with
                    | b4 :: r4 =>
                        if is_cont b4
                        then ((((b1 - 240) * 64 + (b2 - 128)) * 64 + (b3 - 128)) * 64
                              + (b4 - 128)) :: utf8_decode r4
                        else 65533 :: utf8_decode r3
                    | [] => [65533]
                    end
                  else 65533 :: utf8_decode r2
              | [] => [65533]
              end
            else 65533 :: utf8_decode r1
        | [] => [65533]
        end
      else 65533 :: utf8_decode r1
  end.

(** [_ALWAYS_SAFE]: [A-Z a-z 0-9 _ . - ~]. *)
Definition always_safe (b : N) : bool :=
  ((65 <=? b) && (b <=? 90)) || ((97 <=? b) && (b <=? 122)) || ((48 <=? b) && (b <=? 57))
  || (b =? 95) || (b =? 46) || (b =? 45) || (b =? 126).

(** A digit of ['%{:02X}']. *)
Definition hex_upper (n : N) : N := if n <? 10 then 48 + n else 55 + n.

(** [_Quoter(safe)]: [chr(b)] for a safe byte, ['%{:02X}'.format(b)]
    otherwise. *)
Definition quoter (safe : ustr) (b : N) : ustr :=
  if always_safe b || existsb (N.eqb b) safe then [b]
  else [37; hex_upper (b / 16); hex_upper (b mod 16)].

(** [quote_from_bytes(bs, safe)]; [safe] is reduced to its ASCII
    characters, and when every byte is safe ([not bs.rstrip(...)]) the
    bytes are returned decoded. *)
Definition quote_from_bytes (bs : list N) (safe : ustr) : ustr :=
  let safe := filter (fun c => c <? 128) safe in
  match bs with
  | [] => []
  | _ :: _ =>
      if forallb (fun b => always_safe b || existsb (N.eqb b) safe) bs then bs
      else flat_map (quoter safe) bs
  end.

(** [quote(string, safe)] for a [str]: the empty string is returned as
    is, otherwise it is encoded in UTF-8 (strict). *)
Definition quote (s : ustr) (safe : ustr) : option ustr :=
  match s with
  | [] => Some []
  | _ :: _ =>
      match utf8_encode s with
      | Some bs => Some (quote_from_bytes bs safe)
      | None => None
      end
  end.

(** [str.replace(a, b)] for one-character [a] and [b]. *)
Definition replace_char (a b : N) (s : ustr) : ustr :=
  map (fun c => if c =? a then b else c) s.

(** [quote_plus(string)] with [safe=''] *)
Definition quote_plus (s : ustr) : option ustr :=
  if negb (existsb (N.eqb 32) s) then quote s []
  else
    match quote s [32] with
    | Some q => Some (replace_char 32 43 q)
    | None => None
    end.

(** A key of [_hextobyte]: one of [0123456789ABCDEFabcdef]. *)
Definition hex_val (c : N) : option N :=
  if (48 <=? c) && (c <=? 57) then Some (c - 48)
  else if (65 <=? c) && (c <=? 70) then Some (c - 55)
  else if (97 <=? c) && (c <=? 102) then Some (c - 87)
  else None.

(** [bytes.split(bytes([c]))]. *)
Fixpoint split_on (c : N) (s : list N) : list (list N) :=
  match s with
  | [] => [[]]
  | x :: r =>
      let parts := split_on c r in
      if x =? c then [] :: parts
      else match parts with
           | p :: ps => (x :: p) :: ps
           | [] => [[x]]
           end
  end.

(** One [item] of the loop of [_unquote_impl]: [_hextobyte[item[:2]]]
    followed by [item[2:]], or on [KeyError] a ['%'] followed by [item]. *)
Definition item_dec (item : list N) : list N :=
  match item with
  | h1 :: h2 :: rest =>
      match hex_val h1, hex_val h2 with
      | Some a, Some b => (16 * a + b) :: rest
      | _, _ => 37 :: item
      end
  | _ => 37 :: item
  end.

(** [_unquote_impl] on an ASCII string (its UTF-8 encoding is the same
    list of codes). *)
Definition unquote_impl (bs : list N) : list N :=
  match bs with
  | [] => []
  | _ :: _ =>
      match split_on 37 bs with
      | [_] | [] => bs
      | b0 :: items => b0 ++ flat_map item_dec items
      end
  end.

(** The same loop read character by character: a ['%'] followed by two
    hexadecimal digits is one byte, any other ['%'] is kept. *)
Fixpoint unq_chars (s : list N) : list N :=
  match s with
  | [] => []
  | c :: r =>
      if c =? 37 then
        match r with
        | h1 :: h2 :: r' =>
            match hex_val h1, hex_val h2 with
            | Some a, Some b => (16 * a + b) :: unq_chars r'
            | _, _ => 37 :: unq_chars r
            end
        | _ => 37 :: unq_chars r
        end
      else c :: unq_chars r
  end.

(** [''.join(_generate_unquoted_parts(string, 'utf-8', 'replace'))]: the
    maximal runs of ASCII characters ([[\x00-\x7f]+]) are unquoted and
    decoded, the other characters are kept.  [run] holds the current ASCII
    run in reverse; an empty run contributes [b''.decode() = '']. *)
Fixpoint unquote_go (run : ustr) (s : ustr) : ustr :=
  match s with
  | [] => utf8_decode (unquote_impl (rev run))
  | c :: r =>
      if c <? 128 then unquote_go (c :: run) r
      else utf8_decode (unquote_impl (rev run)) ++ c :: unquote_go [] r
  end.

(** [unquote(string)] *)
Definition unquote (s : ustr) : ustr :=
  if negb (existsb (N.eqb 37) s) then s else unquote_go [] s.

(** [unquote_plus(string)] *)
Definition unquote_plus (s : ustr) : ustr := unquote (replace_char 43 32 s).

(** [a, b = s.split(sep, 1)]: [None] when unpacking raises [ValueError]. *)
Fixpoint split_once (sep s : ustr) : option (ustr * ustr) :=
  if is_prefix sep s then Some ([], drop (length sep) s)
  else
    match s with
    | [] => None
    | c :: r =>
        match split_once sep r with
        | Some (a, b) => Some (c :: a, b)
        | None => None
        end
    end.

(** The code points of a Python [str] are below 0x110000. *)
Definition py_str (s : ustr) : Prop := Forall (fun c => c < 1114112) s.

(** A connection configuration: a [dict] from field names to strings. *)
Abbreviation config := (gmap string ustr).

(** [config.get(k, d)] *)
Definition config_get (c : config) (k : string) (d : ustr) : ustr := default d (c !! k).

(** [DBHistoryManager._generate_url]: [URL_FORMAT.format(...)];
    [None] when a [quote_plus] raises. *)
Definition generate_url (c : config) : option ustr :=
  match quote_plus (config_get c "user" []), quote_plus (config_get c "password" []),
        quote_plus (config_get c "database" []) with
  | Some user, Some password, Some database =>
      Some (config_get c "db_type" (codes "MySQL") ++ codes "://" ++ user ++ codes ":"
            ++ password ++ codes "@" ++ config_get c "host" [] ++ codes ":"
            ++ config_get c "port" [] ++ codes "/" ++ database)
  | _, _, _ => None
  end.

(** The [dict] literal returned by [parse_url]. *)
Definition url_config (db_type user password host port database : ustr) : config :=
  <["db_type" := db_type]> (<["user" := user]> (<["password" := password]>
    (<["host" := host]> (<["port" := port]> (<["database" := database]> ∅))))).

(** [DBHistoryManager.parse_url]: any failed unpacking returns [{}]. *)
Definition parse_url (url : ustr) : config :=
  match split_once (codes "://") url with
  | None => ∅
  | Some (db_type, rest) =>
      match split_once (codes "@") rest with
      | None => ∅
      | Some (user_pass, host_db) =>
          match split_once (codes ":") user_pass with
          | None => ∅
          | Some (user, password) =>
              match split_once (codes "/") host_db with
              | None => ∅
              | Some (host_port, database) =>
                  match split_once (codes ":") host_port with
                  | None => ∅
                  | Some (host, port) =>
                      url_config db_type (unquote_plus user) (unquote_plus password)
                        host port (unquote_plus database)
                  end
              end
          end
      end
  end.

(** The loop of [DBHistoryManager.load_history] over the parsed lines of
    the history file: [history[_generate_url(config)] = config]; an
    exception ends the loop (it is caught around the whole loop) and the
    entries read so far are returned. *)
Fixpoint load_history_go (lines : list config) (history : gmap ustr config)
  : gmap ustr config :=
  match lines with
  | [] => history
  | c :: rest =>
      match generate_url c with
      | Some url => load_history_go rest (<[url := c]> history)
      | None => history
      end
  end.

Definition load_history (lines : list config) : gmap ustr config :=
  load_history_go lines ∅.

(** The keys of the dictionary [load_history] returns, in the order a
    Python [dict] keeps them: a key assigned again keeps its position. *)
Definition dict_key_insert (k : ustr) (order : list ustr) : list ustr :=
  if decide (k ∈ order) then order else order ++ [k].

Fixpoint load_history_order_go (lines : list config) (order : list ustr) : list ustr :=
  match lines with
  | [] => order
  | c :: rest =>
      match generate_url c with
      | Some url => load_history_order_go rest (dict_key_insert url order)
      | None => order
      end
  end.

Definition load_history_order (lines : list config) : list ustr :=
  load_history_order_go lines [].

(** [f.write(json.dumps(config, ensure_ascii=False) + "\n")] on a file
    opened with [encoding='utf-8']: [json.dumps] keeps a lone surrogate of
    a value as it is, and encoding it raises [UnicodeEncodeError]. *)
Definition json_line_writable (c : config) : bool :=
  forallb (fun kv => forallb (fun x => negb (is_surrogate x)) kv.2) (map_to_list c).

(** [DBHistoryManager.save_history].  [file] is the content of the history
    file, one parsed line per element; [open_ok] tells whether
    [open(HISTORY_FILE, 'w', encoding='utf-8')] succeeds, a condition of
    the file system.  The outcomes:
    - [SaveSkipped]: the early [return] of the guard;
    - [SaveRaised]: [_generate_url] raises; it is called before the [try],
      so the exception propagates and the file is not touched;
    - [SaveOpenFailed]: [open] raises; the exception is caught and the file
      is not touched;
    - [SaveWriteFailed written]: a [write] raises; the exception is caught,
      and the file, truncated by [open], holds only the lines of [written],
      the values before the first one whose line cannot be encoded;
    - [SaveWritten history]: the file holds one line per value of
      [history], in the order of its keys.
    The argument [config] is named [cfg] here, [config] being the type. *)
Inductive save_outcome :=
| SaveSkipped
| SaveRaised
| SaveOpenFailed
| SaveWriteFailed (written : list config)
| SaveWritten (history : gmap ustr config).

Definition save_history (cfg : config) (file : list config) (open_ok : bool) : save_outcome :=
  let cfg := filter (fun kv => kv.2 <> []) cfg in
  if decide (config_get cfg "host" [] = [] \/ config_get cfg "port" [] = []
             \/ config_get cfg "user" [] = [])
  then SaveSkipped
  else
    match generate_url cfg with
    | None => SaveRaised
    | Some new_url =>
        let history := <[new_url := cfg]> (load_history file) in
        let order := dict_key_insert new_url (load_history_order file) in
        if negb open_ok then SaveOpenFailed
        else
          let values := omap (fun u => history !! u) order in
          let written := take_while json_line_writable values in
          if decide (written = values) then SaveWritten history
          else SaveWriteFailed written
    end.

(** Whether the history file is left as it was. *)
Definition file_untouched (o : save_outcome) : bool :=
  match o with
  | SaveSkipped | SaveRaised | SaveOpenFailed => true
  | SaveWriteFailed _ | SaveWritten _ => false
  end.

Definition form := (ustr * ustr * ustr * ustr * ustr * ustr)%type.

(** [SubQueryTool.on_quick_link_selected]: the values inserted in the
    form, or [None] when it returns early. *)
Definition quick_link_fill (history_dict : gmap ustr config) (selected_url : ustr)
  : option form :=
  match selected_url with
  | [] => None
  | _ :: _ =>
      match history_dict !! selected_url with
      | None => None
      | Some _ =>
          let c := parse_url selected_url in
          if decide (c = ∅) then None
          else Some (config_get c "db_type" (codes "MySQL"), config_get c "host" [],
                     config_get c "port" [], config_get c "user" [],
                     config_get c "password" [], config_get c "database" [])
      end
  end.

(** The fields of a configuration with the defaults of [_generate_url]. *)
Definition config_form (c : config) : form :=
  (config_get c "db_type" (codes "MySQL"), config_get c "host" [], config_get c "port" [],
   config_get c "user" [], config_get c "password" [], config_get c "database" []).

(** Conditions on the fields of a configuration under which the [split]s
    of [parse_url] fall on the separators [_generate_url] wrote: the quoted
    fields are Python strings, the database type has no [':'] and neither
    host nor port has a ['/']. *)
Definition url_fields_ok (c : config) : bool :=
  forallb (fun x => x <? 1114112)
    (config_get c "user" [] ++ config_get c "password" [] ++ config_get c "database" [])
  && negb (existsb (N.eqb 58) (config_get c "db_type" (codes "MySQL")))
  && negb (existsb (N.eqb 47) (config_get c "host" [] ++ config_get c "port" [])).

(** In addition, the host has no [':']. *)
Definition url_safe_config (c : config) : bool :=
  url_fields_ok c && negb (existsb (N.eqb 58) (config_get c "host" [])).

(** Sample configurations: a password with URL delimiters, a space and a
    non-ASCII character; an IPv6 host; a user name holding a lone
    surrogate. *)
Definition sample_config : config :=
  url_config (codes "MySQL") (codes "root") (codes "p@ss:w/rd +%" ++ [233])
    (codes "db.example.com") (codes "3306") (codes "sales db").

Definition sample_config_ipv6 : config :=
  url_config (codes "MySQL") (codes "root") (codes "pw") (codes "::1") (codes "3306") (codes "db").

Definition sample_config_surrogate : config := <["user" := [55296]]> sample_config.

Local Close Scope N_scope.

(** ** Reconstructor: general lemmas *)

Lemma accumulated_fold (l : list (str * str)) (st : build_state) :
  accumulated (fold_left build_step l st) = accumulated st ++ l.
Proof.
  revert st. induction l as [|[n b] l IH]; intros st; simpl.
  - by rewrite app_nil_r.
  - rewrite IH. simpl. by rewrite <- app_assoc.
Qed.

Lemma with_parts_map (l : list (str * str)) (acc : list str) :
  fold_left (fun with_parts '(n, s) => with_parts ++ [render n s]) l acc
  = acc ++ map (fun '(n, s) => render n s) l.
Proof.
  revert acc. induction l as [|[n b] l IH]; intros acc; simpl.
  - by rewrite app_nil_r.
  - rewrite IH. by rewrite <- app_assoc.
Qed.

Lemma py_join_render (decls : list (str * str)) :
  py_join (codes "," ++ NL) (map (fun '(n, s) => render n s) decls) = spec_decls decls.
Proof.
  induction decls as [|[n b] ds IH]; [reflexivity|].
  destruct ds as [|[n' b'] ds']; [reflexivity|].
  change (render n b ++ (codes "," ++ NL)
            ++ py_join (codes "," ++ NL) (map (fun '(n0, s) => render n0 s) ((n', b') :: ds'))
          = n ++ codes " AS (" ++ NL ++ b ++ NL ++ codes ")" ++ codes "," ++ NL
            ++ spec_decls ((n', b') :: ds')).
  rewrite IH. unfold render. by rewrite <- !app_assoc.
Qed.

Lemma build_step_eq (st : build_state) (name body : str) :
  build_step st (name, body)
  = BuildState (<[name := spec_statement (accumulated st ++ [(name, body)]) name]> (result st))
               (accumulated st ++ [(name, body)]).
Proof.
  unfold build_step, spec_statement.
  by rewrite with_parts_map, app_nil_l, py_join_render.
Qed.

Lemma firstn_S_nth (A : Type) (l : list A) (K : nat) (x : A) :
  nth_error l K = Some x -> firstn (S K) l = firstn K l ++ [x].
Proof.
  revert l. induction K as [|K IH]; intros [|y l] H; simpl in *; try discriminate.
  - by injection H as ->.
  - by rewrite (IH l H).
Qed.

Lemma fold_split (l : list (str * str)) (K : nat) (st : build_state) :
  fold_left build_step l st = fold_left build_step (skipn K l) (fold_left build_step (firstn K l) st).
Proof. by rewrite <- fold_left_app, firstn_skipn. Qed.

Lemma result_fold_notin (post : list (str * str)) (st : build_state) (n : str) :
  n ∉ map fst post -> result (fold_left build_step post st) !! n = result st !! n.
Proof.
  revert st. induction post as [|[m b] post IH]; intros st Hn; [reflexivity|].
  cbn [fold_left map fst] in *. rewrite IH by set_solver.
  rewrite build_step_eq. cbn [result]. rewrite lookup_insert_ne; [done|set_solver].
Qed.

Lemma py_join_cons (sep : str) (p : str) (l : list str) :
  l <> [] -> py_join sep (p :: l) = p ++ sep ++ py_join sep l.
Proof. by destruct l. Qed.

Lemma py_join_snoc (sep : str) (l : list str) (x : str) :
  l <> [] -> py_join sep (l ++ [x]) = py_join sep l ++ sep ++ x.
Proof.
  induction l as [|p l IH]; intros Hl; [done|].
  destruct l as [|p' l']; [reflexivity|].
  rewrite <- app_comm_cons, !py_join_cons by (try destruct l'; discriminate).
  rewrite IH by discriminate. by rewrite <- !app_assoc.
Qed.

Lemma spec_decls_snoc (l : list (str * str)) (n b : str) :
  l <> [] -> spec_decls (l ++ [(n, b)]) = spec_decls l ++ codes "," ++ NL ++ render n b.
Proof.
  intros Hl. rewrite <- !py_join_render, map_app. cbn [map].
  rewrite py_join_snoc; [by rewrite <- app_assoc|].
  by destruct l.
Qed.

Lemma spec_decls_length_app (l m : list (str * str)) :
  length (spec_decls l) <= length (spec_decls (l ++ m)).
Proof.
  induction m as [|[n b] m IH] using rev_ind.
  - by rewrite app_nil_r.
  - rewrite app_assoc. destruct (l ++ m) as [|x xs] eqn:E.
    + apply app_eq_nil in E as [-> _]. simpl. lia.
    + rewrite spec_decls_snoc by discriminate. rewrite length_app. lia.
Qed.

(** ** Reconstructor: claims *)

(** C1: for the pair at (0-based) index [K] of the input, i.e. position
    [K+1], the iteration of [build_executable_cte_sql] that handles it is
    the one run after the first [K] pairs, and it stores under its name
    exactly the statement "WITH\n" + the renderings "<n> AS (\n<b>\n)" of
    the pairs at positions 1..K+1, in order, joined by ",\n" +
    "\nSELECT * FROM <name>"; its accumulator then holds exactly those
    pairs and no later one. *)
Theorem build_kth_statement (ctes : list (str * str)) (K : nat) (name body : str) :
  nth_error ctes K = Some (name, body) ->
  let before := fold_left build_step (firstn K ctes) build_init in
  build_executable_cte_sql ctes
    = result (fold_left build_step (skipn (S K) ctes) (build_step before (name, body))) /\
  build_step before (name, body)
    = BuildState (<[name := spec_statement (firstn (S K) ctes) name]> (result before))
                 (firstn (S K) ctes).
Proof.
  intros H before. split.
  - unfold build_executable_cte_sql.
    rewrite (fold_split ctes (S K)), (firstn_S_nth _ _ _ _ H), fold_left_app.
    reflexivity.
  - rewrite build_step_eq. unfold before. rewrite accumulated_fold. cbn [accumulated build_init].
    by rewrite app_nil_l, (firstn_S_nth _ _ _ _ H).
Qed.

Lemma build_kth_statement_witness :
  nth_error [(codes "a", codes "select 1"); (codes "b", codes "select * from a")] 1
    = Some (codes "b", codes "select * from a") /\
  (let ctes := [(codes "a", codes "select 1"); (codes "b", codes "select * from a")] in
   let before := fold_left build_step (firstn 1 ctes) build_init in
   build_executable_cte_sql ctes
     = result (fold_left build_step (skipn 2 ctes) (build_step before (codes "b", codes "select * from a"))) /\
   build_step before (codes "b", codes "select * from a")
     = BuildState (<[codes "b" := spec_statement (firstn 2 ctes) (codes "b")]> (result before))
                  (firstn 2 ctes)).
Proof.
  split; [reflexivity|].
  exact (build_kth_statement [(codes "a", codes "select 1"); (codes "b", codes "select * from a")]
           1 (codes "b") (codes "select * from a") eq_refl).
Defined.

(** C7: when a name [n] occurs twice in the sequence, at an earlier and at
    a later (last) position, the mapping has under [n] the statement built
    for the later occurrence (declarations up to it), which differs from the
    statement built for the earlier one; the segmenter keeps both
    occurrences, in order. *)
Theorem build_duplicate_last_wins (pre1 pre2 post : list (str * str)) (n b0 b : str) :
  n ∉ map fst post ->
  let ctes := pre1 ++ (n, b0) :: pre2 ++ (n, b) :: post in
  build_executable_cte_sql ctes !! n
    = Some (spec_statement (pre1 ++ (n, b0) :: pre2 ++ [(n, b)]) n) /\
  build_executable_cte_sql ctes !! n <> Some (spec_statement (pre1 ++ [(n, b0)]) n) /\
  parse_cte_sql (codes "with a as (select 1), a as (select 2) select * from a")
    = Some [(codes "a", codes "select 1"); (codes "a", codes "select 2")].
Proof.
  intros Hpost ctes.
  assert (Hl : build_executable_cte_sql ctes !! n
               = Some (spec_statement (pre1 ++ (n, b0) :: pre2 ++ [(n, b)]) n)).
  { unfold ctes, build_executable_cte_sql.
    rewrite app_comm_cons, app_assoc, fold_left_app. cbn [fold_left].
    rewrite result_fold_notin by done. rewrite build_step_eq. cbn [result].
    rewrite lookup_insert_eq, accumulated_fold. cbn [accumulated build_init].
    by rewrite app_nil_l, <- app_assoc, <- app_comm_cons. }
  split; [exact Hl|]. split; [|by vm_compute].
  rewrite Hl. intros Heq. injection Heq as Heq.
  apply (f_equal length) in Heq. unfold spec_statement in Heq.
  rewrite !length_app in Heq.
  rewrite app_comm_cons, app_assoc, spec_decls_snoc in Heq
    by (intros E; apply app_eq_nil in E as [_ E]; discriminate).
  rewrite length_app in Heq.
  pose proof (spec_decls_length_app (pre1 ++ [(n, b0)]) pre2) as Hm.
  rewrite <- app_assoc in Hm. cbn [app] in Hm.
  assert (length (codes "," ++ NL ++ render n b) > 0) by (simpl; lia).
  lia.
Qed.

Lemma build_duplicate_last_wins_witness :
  (codes "a" ∉ map fst ([] : list (str * str))) /\
  (let ctes := [] ++ (codes "a", codes "select 1") :: [] ++ (codes "a", codes "select 2") :: [] in
   build_executable_cte_sql ctes !! codes "a"
     = Some (spec_statement ([] ++ (codes "a", codes "select 1") :: [] ++ [(codes "a", codes "select 2")]) (codes "a")) /\
   build_executable_cte_sql ctes !! codes "a"
     <> Some (spec_statement ([] ++ [(codes "a", codes "select 1")]) (codes "a")) /\
   parse_cte_sql (codes "with a as (select 1), a as (select 2) select * from a")
     = Some [(codes "a", codes "select 1"); (codes "a", codes "select 2")]).
Proof.
  assert (H : codes "a" ∉ map fst ([] : list (str * str))) by (simpl; set_solver).
  split; [exact H|].
  exact (build_duplicate_last_wins [] [] [] (codes "a") (codes "select 1") (codes "select 2") H).
Defined.

(** ** Segmenter: concrete scenarios *)

(** C2: scenario 1 of the specification, segmentation and reconstruction. *)
Theorem scenario1_segment_reconstruct :
  let ctes := parse_cte_sql (codes "with a as (select 1), b as (select * from a) select * from b") in
  ctes = Some [(codes "a", codes "select 1"); (codes "b", codes "select * from a")] /\
  option_map build_executable_cte_sql ctes
  = Some (<[codes "b" := codes ("WITH" ++ nl ++ "a AS (" ++ nl ++ "select 1" ++ nl ++ ")," ++ nl
                           ++ "b AS (" ++ nl ++ "select * from a" ++ nl ++ ")" ++ nl
                           ++ "SELECT * FROM b")]>
          {[ codes "a" := codes ("WITH" ++ nl ++ "a AS (" ++ nl ++ "select 1" ++ nl ++ ")" ++ nl
                             ++ "SELECT * FROM a") ]}).
Proof. vm_compute. split; reflexivity. Qed.

(** C3 (divergence): on the unbalanced input [with a as (select 1] the
    segmenter returns one entry and does not fail, but its body is
    ["select"]: [end = pos - 1] drops the last character of the input even
    though no closing parenthesis was consumed. *)
Theorem unbalanced_body_loses_last_char :
  parse_cte_sql (codes "with a as (select 1") = Some [(codes "a", codes "select")] /\
  parse_cte_sql (codes "with a as (select 1") <> Some [(codes "a", codes "select 1")].
Proof. vm_compute. split; [reflexivity|discriminate]. Qed.

(** C4 (divergence): with the separator ",\r\n" between two declarations
    the scan stops after the first one: the skip after the comma only
    passes over [" \n\t,"], so the carriage return makes the name match
    fail. *)
Theorem crlf_separator_drops_second_cte :
  parse_cte_sql (codes "with a as (select 1)," ++ [13%N; 10%N] ++ codes "b as (select 2) select * from b")
  = Some [(codes "a", codes "select 1")].
Proof. vm_compute. reflexivity. Qed.

(** C5: scenario 4, nested parentheses inside a body. *)
Theorem nested_parentheses_body :
  parse_cte_sql (codes "with a as (select * from (select 1) x) select * from a")
  = Some [(codes "a", codes "select * from (select 1) x")].
Proof. vm_compute. reflexivity. Qed.

(** C9 (divergence): the input
    [with a as (select 'İİ'), b as (1) select (2)] (two U+0130) has
    balanced parentheses, but the second body returned is ["select (2"],
    with one ["("] and no [")"].  [sql.lower()] is two characters longer
    than [sql] before the second declaration, so the index that
    [sql.lower().find("(", pos)] returns is two characters past the
    opening parenthesis of [(1)] in [sql], and the bracket scan starts
    after [(1)]. *)
Theorem lowered_find_unbalanced_body :
  let sql := codes "with a as (select '" ++ [304%N; 304%N] ++ codes "'), b as (1) select (2)" in
  balanced sql /\
  parse_cte_sql sql
    = Some [(codes "a", codes "select '" ++ [304%N; 304%N] ++ codes "'");
            (codes "b", codes "select (2")] /\
  count_char 40 (codes "select (2") <> count_char 41 (codes "select (2").
Proof.
  intros sql. split; [|split; [vm_compute; reflexivity|vm_compute; discriminate]].
  split; [vm_compute; reflexivity|].
  intros v u Hs.
  assert (Hsplit : In (v, u) (map (fun k => (take k sql, drop k sql)) (seq 0 (S (length sql))))).
  { apply in_map_iff. exists (length v). split.
    - rewrite Hs, take_app_length, drop_app_length. reflexivity.
    - apply in_seq. apply (f_equal length) in Hs. rewrite length_app in Hs. lia. }
  vm_compute in Hsplit.
  repeat (destruct Hsplit as [Hsplit|Hsplit]; [injection Hsplit as <- <-; vm_compute; lia|]).
  destruct Hsplit.
Qed.

(** ** Segmenter: general lemmas *)

Lemma in_ranges_enum (rs : list (N * N)) (c : N) :
  in_ranges rs c = true -> In c (enum_ranges rs).
Proof.
  induction rs as [|[lo hi] rs IH]; [discriminate|].
  cbn [in_ranges existsb]. rewrite orb_true_iff, andb_true_iff, !N.leb_le.
  intros [[H1 H2]|H].
  - apply in_or_app. left. apply in_map_iff. exists (N.to_nat (c - lo)). split; [lia|].
    apply in_seq. lia.
  - apply in_or_app. right. by apply IH.
Qed.

Lemma py_isspace_not_word (c : N) : py_isspace c = true -> py_isword c = false.
Proof.
  intros H. apply in_ranges_enum in H.
  assert (Hall : forallb (fun d => negb (py_isword d)) (enum_ranges space_ranges) = true)
    by (vm_compute; reflexivity).
  rewrite forallb_forall in Hall. specialize (Hall c H). by destruct (py_isword c).
Qed.

Lemma skip_while_app {A} (p : A -> bool) (s : list A) :
  exists pre, s = pre ++ skip_while p s /\ Forall (fun c => p c = true) pre.
Proof.
  induction s as [|c r IH]; [exists []; done|]. simpl.
  destruct (p c) eqn:E.
  - destruct IH as [pre [Hs Hf]]. exists (c :: pre).
    split; [simpl; by rewrite <- Hs|by constructor].
  - exists []. auto.
Qed.

Lemma skip_while_suffix {A} (p : A -> bool) (s : list A) : skip_while p s `suffix_of` s.
Proof. destruct (skip_while_app p s) as [pre [Hs _]]. by exists pre. Qed.

Lemma find_char_in (c : N) (s : str) : In c s -> exists k, find_char c s = Some k.
Proof.
  induction s as [|d r IH]; simpl; [done|]. intros Hin.
  destruct (N.eqb_spec d c) as [E|E]; [eauto|].
  destruct Hin as [Hd|Hin]; [done|].
  destruct (IH Hin) as [k ->]. eauto.
Qed.

Lemma py_lower_char_nonempty (c : N) : py_lower_char c <> [].
Proof.
  unfold py_lower_char, case_map.
  destruct (special_lookup lower_special c) as [l|] eqn:E.
  - cbn in E. destruct (c =? 304)%N; [|discriminate]. by injection E as <-.
  - by destruct (case_lookup lower_table c).
Qed.

Lemma py_lower_length (s : str) : length s <= length (py_lower s).
Proof.
  induction s as [|c r IH]; [done|]. cbn [py_lower flat_map]. fold (py_lower r).
  rewrite length_app. pose proof (py_lower_char_nonempty c).
  destruct (py_lower_char c); [done|]. simpl. lia.
Qed.

Lemma py_lower_app (s t : str) : py_lower (s ++ t) = py_lower s ++ py_lower t.
Proof. apply flat_map_app. Qed.

Lemma py_lower_paren : py_lower_char 40 = [40%N].
Proof. vm_compute. reflexivity. Qed.

(** After a match of [as\s*\(] there is a ["("] in [sql]. *)
Lemma as_paren_paren (s : str) : as_paren s = true -> exists j, s !! j = Some 40%N.
Proof.
  destruct s as [|a [|s' r]]; try discriminate. cbn [as_paren].
  destruct (skip_while py_isspace r) as [|c t] eqn:E; [by rewrite andb_false_r|].
  rewrite andb_true_iff, N.eqb_eq. intros [_ ->].
  destruct (skip_while_app py_isspace r) as [pre [Hr _]]. rewrite E in Hr.
  exists (2 + length pre). change ((a :: s' :: r) !! (2 + length pre)) with (r !! length pre).
  rewrite Hr, lookup_app_r, Nat.sub_diag by lia. done.
Qed.

(** So the search in [sql.lower()] from the cursor finds a ["("] (the
    lowered string is at least as long before any position). *)
Lemma find_after_as_paren (sql : str) (pos : nat) :
  as_paren (drop pos sql) = true ->
  exists k, pos <= k /\ find_from 40 (py_lower sql) pos = Some k.
Proof.
  intros H. destruct (as_paren_paren _ H) as [j Hj].
  rewrite lookup_drop in Hj.
  rewrite <- (take_drop_middle sql (pos + j) 40%N Hj), py_lower_app. cbn [py_lower flat_map].
  rewrite py_lower_paren.
  pose proof (py_lower_length (take (pos + j) sql)) as Hl.
  apply lookup_lt_Some in Hj as Hlt. rewrite length_take_le in Hl by lia.
  unfold find_from. rewrite drop_app_le by lia.
  match goal with |- context [find_char 40 ?l] => destruct (find_char_in 40 l) as [k Hk] end.
  { apply in_or_app. right. by left. }
  rewrite Hk. exists (pos + k). split; [lia|done].
Qed.

Lemma skip_from_ge (p : N -> bool) (s : str) (pos : nat) : pos <= skip_from p s pos.
Proof. unfold skip_from. lia. Qed.

(** ** Segmenter: totality *)

(** The loop ends before its fuel: an iteration that goes on leaves the
    cursor at a [","] of the text, strictly after where it started,
    because the [find] from the cursor lands at or after it. *)
Lemma cte_loop_total (fuel : nat) :
  forall sql pos ctes, length sql - pos < fuel ->
  exists res, cte_loop fuel sql pos ctes = Some res.
Proof.
  induction fuel as [|fuel IH]; intros sql pos ctes Hf; [lia|].
  cbn [cte_loop]. destruct (pos <? length sql) eqn:Hp; cbn [negb]; [|eauto].
  apply Nat.ltb_lt in Hp.
  pose proof (skip_from_ge is_sep sql pos) as H1.
  destruct (match_ident (drop (skip_from is_sep sql pos) sql)) as [name|]; [|eauto].
  pose proof (skip_from_ge py_isspace sql (skip_from is_sep sql pos + length name)) as H2.
  destruct (as_paren (drop (skip_from py_isspace sql (skip_from is_sep sql pos + length name)) sql))
    eqn:Has; cbn [negb]; [|eauto].
  destruct (find_after_as_paren _ _ Has) as [k [Hk Hfind]]. rewrite Hfind.
  match goal with |- context [skip_from py_isspace sql ?q] =>
    pose proof (skip_from_ge py_isspace sql q) as H3 end.
  match goal with |- context [sql !! ?q] => destruct (sql !! q) as [c|] eqn:Hc end; [|eauto].
  destruct (c =? 44)%N; [|eauto].
  apply IH. apply lookup_lt_Some in Hc. lia.
Qed.


(** ** Segmenter: inputs without [WITH] *)

Lemma strip_app (s : str) :
  exists ws1 ws2, s = ws1 ++ strip s ++ ws2 /\
    Forall (fun c => py_isspace c = true) ws1 /\ Forall (fun c => py_isspace c = true) ws2.
Proof.
  destruct (skip_while_app py_isspace s) as [ws1 [H1 F1]].
  destruct (skip_while_app py_isspace (rev (lstrip s))) as [w [H2 F2]].
  exists ws1, (rev w). split; [|split; [done|by apply Forall_rev]].
  unfold strip. rewrite H1 at 1. f_equal. fold (lstrip s) in *.
  set (t := lstrip s) in *. fold (lstrip (rev t)) in H2.
  set (x := lstrip (rev t)) in *.
  by rewrite <- (rev_involutive t), H2, rev_app_distr.
Qed.

Lemma search_with_sound (prev : option N) (s : str) (i e : nat) :
  search_with prev s i = Some e ->
  exists v u, s = v ++ u /\
    with_at (match last v with Some y => Some y | None => prev end) u = true.
Proof.
  revert prev i. induction s as [|c t IH]; intros prev i H.
  - cbn in H. destruct (with_at prev []) eqn:E; [|discriminate]. by exists [], [].
  - cbn [search_with] in H. destruct (with_at prev (c :: t)) eqn:E.
    + by exists [], (c :: t).
    + destruct (IH (Some c) (S i) H) as [v [u [Ht Hw]]].
      exists (c :: v), u. split; [by rewrite Ht|].
      change (c :: v) with ([c] ++ v). rewrite last_app.
      destruct (last v); exact Hw.
Qed.

Lemma with_at_extend (p p' : option N) (u ws : str) :
  with_at p u = true ->
  (boundary_before p = true -> boundary_before p' = true) ->
  Forall (fun c => py_isspace c = true) ws ->
  with_at p' (u ++ ws) = true.
Proof.
  intros H Hb Hws. destruct u as [|w [|i [|t [|h rest]]]]; try discriminate.
  cbn [with_at app] in *.
  destruct (boundary_before p) eqn:Ep; [|discriminate].
  rewrite (Hb eq_refl). cbn [andb] in *.
  destruct (ci w _ && ci i _ && ci t _ && ci h _); [|discriminate].
  destruct rest as [|c rest]; [|done].
  destruct ws as [|c ws]; [done|]. inversion Hws; subst. simpl.
  by rewrite py_isspace_not_word.
Qed.

(** C6: an input with no whole-word, case-insensitive occurrence of
    [with] (no split [s = v ++ u] at which [\bwith\b] matches, [v]'s last
    character being the one before the match) is segmented into the empty
    sequence, and the reconstructor maps the empty sequence to the empty
    mapping. *)
Theorem no_with_segment_empty (s : str) :
  (forall v u, s = v ++ u -> with_at (last v) u = false) ->
  parse_cte_sql s = Some [] /\ build_executable_cte_sql [] = ∅.
Proof.
  intros Hno. split; [|reflexivity].
  unfold parse_cte_sql.
  destruct (search_with None (strip s) 0) as [e|] eqn:E; [|reflexivity].
  exfalso.
  destruct (search_with_sound _ _ _ _ E) as [v [u [Hs Hw]]].
  destruct (strip_app s) as [ws1 [ws2 [Hs' [F1 F2]]]].
  assert (Hw' : with_at (last (ws1 ++ v)) (u ++ ws2) = true).
  { apply (with_at_extend _ _ _ _ Hw); [|exact F2].
    rewrite last_app. destruct (last v) as [y|]; [done|].
    intros _. destruct (last ws1) as [c|] eqn:El; [|done].
    apply last_Some in El as [l' ->]. apply Forall_app in F1 as [_ F1].
    inversion F1; subst. simpl. by rewrite py_isspace_not_word. }
  rewrite (Hno (ws1 ++ v) (u ++ ws2)) in Hw'; [discriminate|].
  rewrite Hs', Hs. by rewrite <- !app_assoc.
Qed.

Lemma no_with_segment_empty_witness :
  (forall v u, codes "select * from t" = v ++ u -> with_at (last v) u = false) /\
  parse_cte_sql (codes "select * from t") = Some [] /\ build_executable_cte_sql [] = ∅.
Proof.
  assert (H : forall v u, codes "select * from t" = v ++ u -> with_at (last v) u = false).
  { intros v u Hs.
    assert (Hsplit : In (v, u) (map (fun k => (take k (codes "select * from t"), drop k (codes "select * from t")))
                                   (seq 0 16))).
    { apply in_map_iff. exists (length v). split.
      - rewrite Hs, take_app_length, drop_app_length. reflexivity.
      - apply in_seq. apply (f_equal length) in Hs. rewrite length_app in Hs.
        change (length (codes "select * from t")) with 15 in Hs. lia. }
    vm_compute in Hsplit.
    repeat (destruct Hsplit as [Hsplit|Hsplit]; [injection Hsplit as <- <-; vm_compute; reflexivity|]).
    destruct Hsplit. }
  split; [exact H|]. exact (no_with_segment_empty _ H).
Defined.

(** ** Segmenter: malformed declarations *)

(** C8: at any iteration of the scan loop, with [ctes] the entries
    captured so far and [pos] the cursor, if after the skipped separators
    an identifier [name] matches but the text after it (and after
    whitespace) does not start with [AS], optional whitespace and ["("]
    (case-insensitively), the segmenter stops and returns exactly
    [ctes]. *)
Theorem malformed_declaration_stops (fuel : nat) (sql : str) (pos : nat)
    (ctes : list (str * str)) (name : str) :
  pos < length sql ->
  match_ident (drop (skip_from is_sep sql pos) sql) = Some name ->
  as_paren (drop (skip_from py_isspace sql (skip_from is_sep sql pos + length name)) sql) = false ->
  cte_loop (S fuel) sql pos ctes = Some ctes.
Proof.
  intros Hp Hid Has. cbn [cte_loop].
  replace (pos <? length sql) with true by (symmetry; by apply Nat.ltb_lt).
  cbn [negb]. rewrite Hid, Has. reflexivity.
Qed.

(** On [with a as (select 1), b select 2] the loop reaches the cursor at
    [", b select 2"] (index 20) having captured [a]; there [b] is not
    followed by [AS (]. *)
Lemma malformed_declaration_stops_witness :
  parse_cte_sql (codes "with a as (select 1), b select 2")
    = cte_loop 32 (codes "with a as (select 1), b select 2") 20 [(codes "a", codes "select 1")] /\
  20 < length (codes "with a as (select 1), b select 2") /\
  match_ident (drop (skip_from is_sep (codes "with a as (select 1), b select 2") 20)
                 (codes "with a as (select 1), b select 2")) = Some (codes "b") /\
  as_paren (drop (skip_from py_isspace (codes "with a as (select 1), b select 2")
                    (skip_from is_sep (codes "with a as (select 1), b select 2") 20 + length (codes "b")))
               (codes "with a as (select 1), b select 2")) = false /\
  cte_loop 32 (codes "with a as (select 1), b select 2") 20 [(codes "a", codes "select 1")]
    = Some [(codes "a", codes "select 1")].
Proof.
  split; [vm_compute; reflexivity|].
  split; [vm_compute; lia|]. split; [vm_compute; reflexivity|]. split; [vm_compute; reflexivity|].
  apply (malformed_declaration_stops 31 (codes "with a as (select 1), b select 2") 20
           [(codes "a", codes "select 1")] (codes "b")); vm_compute; [lia|reflexivity|reflexivity].
Defined.

(** ** Segmenter: shape of the entries *)

Lemma match_ident_is_ident (s name : str) :
  match_ident s = Some name -> is_ident name = true.
Proof.
  destruct s as [|c r]; simpl; [discriminate|].
  destruct (ident_start c) eqn:Ec; [|discriminate]. intros H; injection H as <-.
  cbn [is_ident]. rewrite Ec. simpl. clear. induction r as [|d r IH]; [done|].
  simpl. destruct (ident_char d) eqn:Ed; [|done]. simpl. by rewrite Ed.
Qed.

(** Each iteration of the scan loop appends one entry whose name was
    matched by [[a-zA-Z_][a-zA-Z0-9_] * ] and whose body is the result of a
    [.strip()]. *)
Lemma cte_loop_entries (fuel : nat) :
  forall sql pos ctes res, cte_loop fuel sql pos ctes = Some res ->
  exists new, res = ctes ++ new /\
    Forall (fun '(n, b) => is_ident n = true /\ exists x, b = strip x) new.
Proof.
  induction fuel as [|fuel IH]; intros sql pos ctes res Hres; [discriminate|].
  assert (Hnil : Some ctes = Some res -> exists new, res = ctes ++ new /\
      Forall (fun '(n, b) => is_ident n = true /\ exists x, b = strip x) new).
  { intros H; injection H as <-. exists []. by rewrite app_nil_r. }
  cbn [cte_loop] in Hres.
  destruct (pos <? length sql); cbn [negb] in Hres; [|by apply Hnil].
  destruct (match_ident (drop (skip_from is_sep sql pos) sql)) as [name|] eqn:Hid;
    [|by apply Hnil].
  apply match_ident_is_ident in Hid.
  match type of Hres with context [as_paren ?s] => destruct (as_paren s) end;
    cbn [negb] in Hres; [|by apply Hnil].
  match type of Hres with context [strip ?x] =>
    set (e := (name, strip x)) in Hres end.
  assert (He : (fun '(n, b) => is_ident n = true /\ exists x, b = strip x) e)
    by (split; eauto).
  assert (Hstop : Some (ctes ++ [e]) = Some res ->
    exists new, res = ctes ++ new /\
      Forall (fun '(n, b) => is_ident n = true /\ exists x, b = strip x) new).
  { intros H; injection H as <-. exists [e]. split; [done|by constructor]. }
  match type of Hres with context [sql !! ?q] => destruct (sql !! q) as [c|] end;
    [|by apply Hstop].
  destruct (c =? 44)%N; [|by apply Hstop].
  destruct (IH _ _ _ _ Hres) as [new [-> Hnew]].
  exists (e :: new). split; [by rewrite <- app_assoc|by constructor].
Qed.

Lemma parse_entries (sql : str) (ctes : list (str * str)) :
  parse_cte_sql sql = Some ctes ->
  Forall (fun '(n, b) => is_ident n = true /\ exists x, b = strip x) ctes.
Proof.
  unfold parse_cte_sql. destruct (search_with None (strip sql) 0) as [pos|].
  - intros H. by destruct (cte_loop_entries _ _ _ _ _ H) as [new [-> Hn]].
  - intros H; injection H as <-. constructor.
Qed.

Lemma skip_while_head {A} (p : A -> bool) (s : list A) :
  match skip_while p s with c :: _ => p c = false | [] => True end.
Proof.
  induction s as [|c r IH]; [done|]. simpl. by destruct (p c) eqn:E.
Qed.

Lemma skip_while_id {A} (p : A -> bool) (s : list A) :
  match s with c :: _ => p c = false | [] => True end -> skip_while p s = s.
Proof. destruct s as [|c r]; [done|]. simpl. by intros ->. Qed.

Lemma strip_idem (x : str) : strip (strip x) = strip x.
Proof.
  unfold strip.
  set (y := lstrip x). set (z := lstrip (rev y)).
  assert (Hz : lstrip z = z).
  { apply skip_while_id. apply skip_while_head. }
  assert (Hrz : lstrip (rev z) = rev z).
  { apply skip_while_id.
    destruct (rev z) as [|c t] eqn:E; [done|].
    destruct (skip_while_app py_isspace (rev y)) as [pre [Hy _]].
    change (skip_while py_isspace (rev y)) with z in Hy.
    pose proof (skip_while_head py_isspace x) as Hh. fold (lstrip x) y in Hh.
    assert (Hl : last z = Some c).
    { rewrite <- (rev_involutive z), E. simpl. by rewrite last_snoc. }
    clearbody y z. destruct y as [|d y'].
    - simpl in Hy. destruct pre, z; simpl in *; congruence.
    - assert (Hly : last (rev (d :: y')) = Some d) by (simpl; by rewrite last_snoc).
      rewrite Hy, last_app, Hl in Hly. by injection Hly as ->. }
  by rewrite Hrz, rev_involutive, Hz.
Qed.

Lemma skip_while_all {A} (p : A -> bool) (ws t : list A) :
  Forall (fun c => p c = true) ws -> skip_while p (ws ++ t) = skip_while p t.
Proof. induction 1 as [|c ws Hc _ IH]; [done|]. simpl. by rewrite Hc. Qed.

Lemma skip_while_app_r {A} (p : A -> bool) (s t : list A) :
  skip_while p (s ++ t) =
  match skip_while p s with [] => skip_while p t | _ => skip_while p s ++ t end.
Proof.
  induction s as [|c r IH]; [done|]. simpl. by destruct (p c).
Qed.

Lemma strip_ws (ws1 s ws2 : str) :
  Forall (fun c => py_isspace c = true) ws1 ->
  Forall (fun c => py_isspace c = true) ws2 ->
  strip (ws1 ++ s ++ ws2) = strip s.
Proof.
  intros H1 H2. unfold strip, lstrip.
  rewrite skip_while_all by exact H1. rewrite skip_while_app_r.
  destruct (skip_while py_isspace s) as [|c r] eqn:E.
  - rewrite <- (app_nil_r ws2), skip_while_all by exact H2. reflexivity.
  - rewrite rev_app_distr, skip_while_all by (by apply Forall_rev). reflexivity.
Qed.

(** ** Reconstructor: the mapping as a whole *)

Lemma build_snoc (l : list (str * str)) (n b : str) :
  build_executable_cte_sql (l ++ [(n, b)])
  = <[n := spec_statement (l ++ [(n, b)]) n]> (build_executable_cte_sql l).
Proof.
  unfold build_executable_cte_sql. rewrite fold_left_app. cbn [fold_left].
  by rewrite build_step_eq, accumulated_fold.
Qed.

Lemma build_dom_eq (l : list (str * str)) :
  dom (build_executable_cte_sql l) = list_to_set (map fst l).
Proof.
  induction l as [|[n b] l IH] using rev_ind.
  { change (build_executable_cte_sql []) with (∅ : gmap str str). by rewrite dom_empty_L. }
  rewrite build_snoc, dom_insert_L, IH, map_app, list_to_set_app_L. cbn.
  set_solver.
Qed.

Lemma build_lookup (l : list (str * str)) (k v : str) :
  build_executable_cte_sql l !! k = Some v <->
  exists K b, l !! K = Some (k, b) /\ (k ∉ map fst (drop (S K) l)) /\
    v = spec_statement (take (S K) l) k.
Proof.
  induction l as [|[n b] l IH] using rev_ind.
  { change (build_executable_cte_sql []) with (∅ : gmap str str).
    rewrite lookup_empty. split; [discriminate|]. by intros (K & b & H & _). }
  rewrite build_snoc. destruct (decide (k = n)) as [->|Hne].
  - rewrite lookup_insert_eq. split.
    + intros H; injection H as <-. exists (length l), b.
      rewrite lookup_app_r, Nat.sub_diag by lia.
      rewrite drop_ge, take_ge by (rewrite length_app; simpl; lia).
      split; [done|split; [set_solver|done]].
    + intros (K & b' & HK & Hn & ->). f_equal.
      destruct (decide (K < length l)) as [Hlt|Hge].
      * exfalso. apply Hn. rewrite drop_app_le by lia. rewrite map_app.
        apply elem_of_app. right. simpl. set_solver.
      * apply lookup_lt_Some in HK as Hlt. rewrite length_app in Hlt. simpl in Hlt.
        by rewrite take_ge by (rewrite length_app; simpl; lia).
  - rewrite lookup_insert_ne by congruence. rewrite IH. split.
    + intros (K & b' & HK & Hn & ->). apply lookup_lt_Some in HK as Hlt.
      exists K, b'. rewrite lookup_app_l by lia.
      rewrite drop_app_le, take_app_le by lia. rewrite map_app.
      split; [done|split; [|done]]. simpl. set_solver.
    + intros (K & b' & HK & Hn & ->).
      destruct (decide (K < length l)) as [Hlt|Hge].
      * rewrite lookup_app_l in HK by lia.
        rewrite drop_app_le, take_app_le in * by lia. rewrite map_app in Hn.
        exists K, b'. split; [done|split; [set_solver|done]].
      * rewrite lookup_app_r in HK by lia.
        destruct (K - length l) as [|j]; [|simpl in HK; by rewrite lookup_nil in HK].
        injection HK as ->. congruence.
Qed.

(** ** Segmenter and reconstructor: totality *)

(** C10: [parse_cte_sql] returns a list on every input: its only failure
    result, fuel running out, never occurs (each iteration that goes on
    moves the cursor strictly forward), and no step of the loop can raise
    (every [sql[pos]] is read under [pos < length], slices never raise).
    [build_executable_cte_sql] is a structural fold with no failure path:
    it returns, for every sequence, the mapping with one key per name of
    the sequence. *)
Theorem parse_cte_sql_total (sql : str) (ctes : list (str * str)) :
  (exists res, parse_cte_sql sql = Some res) /\
  dom (build_executable_cte_sql ctes) = list_to_set (map fst ctes).
Proof.
  split; [|apply build_dom_eq].
  unfold parse_cte_sql.
  destruct (search_with None (strip sql) 0) as [pos|]; [|eauto].
  apply cte_loop_total. lia.
Qed.

(** ** [execute_sql]: substring tests *)

Lemma is_prefix_iff (p s : list N) : is_prefix p s = true <-> exists r, s = p ++ r.
Proof.
  revert s. induction p as [|x p IH]; intros s; [split; eauto|].
  destruct s as [|y s]; simpl.
  - split; [discriminate|]. by intros [r ?].
  - rewrite andb_true_iff, N.eqb_eq, IH. split.
    + intros [-> [r ->]]. eauto.
    + intros [r H]. injection H as -> ->. eauto.
Qed.

Lemma contains_iff (p s : list N) : contains p s = true <-> exists a b, s = a ++ p ++ b.
Proof.
  induction s as [|y s IH]; simpl; rewrite orb_true_iff, is_prefix_iff.
  - split.
    + intros [[r ->]|]; [by exists [], r|discriminate].
    + intros (a & b & H). left. exists b. destruct a; [done|discriminate].
  - rewrite IH. split.
    + intros [[r ->]|(a & b & ->)]; [by exists [], r|by exists (y :: a), b].
    + intros ([|y' a] & b & H); [left; by exists b|].
      injection H as -> ->. right. eauto.
Qed.

Lemma ends_with_iff (p s : list N) : ends_with p s = true <-> exists a, s = a ++ p.
Proof.
  unfold ends_with. rewrite is_prefix_iff. split.
  - intros [r H]. exists (rev r).
    by rewrite <- (rev_involutive s), H, rev_app_distr, rev_involutive.
  - intros [a ->]. exists (rev a). by rewrite rev_app_distr.
Qed.

Lemma py_upper_app (s t : str) : py_upper (s ++ t) = py_upper s ++ py_upper t.
Proof. apply flat_map_app. Qed.

(** The [endswith] test is implied by the [in] test. *)
Lemma execute_sql_text_eq (sql : str) (limit_rows : N) (disable_limit : bool) :
  execute_sql_text sql limit_rows disable_limit
  = if contains (codes "LIMIT") (py_upper sql) then sql else sql ++ limit_clause limit_rows.
Proof.
  unfold execute_sql_text.
  destruct (contains (codes "LIMIT") (py_upper sql)) eqn:C; [by rewrite andb_false_r|].
  replace (ends_with (codes "LIMIT") (py_upper (strip sql))) with false; [done|].
  symmetry. apply not_true_iff_false. rewrite ends_with_iff. intros [a Ha].
  apply not_true_iff_false in C. apply C, contains_iff.
  destruct (strip_app sql) as (ws1 & ws2 & Hs & _).
  exists (py_upper ws1 ++ a), (py_upper ws2).
  by rewrite Hs, !py_upper_app, Ha, <- !app_assoc.
Qed.

(** ** URLs: UTF-8 *)

Local Open Scope N_scope.

Ltac ncmp :=
  repeat match goal with
  | |- context [?a <=? ?b] =>
      first [rewrite (proj2 (N.leb_le a b)) by lia | rewrite (proj2 (N.leb_gt a b)) by lia]
  | |- context [?a <? ?b] =>
      first [rewrite (proj2 (N.ltb_lt a b)) by lia | rewrite (proj2 (N.ltb_ge a b)) by lia]
  | |- context [?a =? ?b] =>
      first [rewrite (proj2 (N.eqb_eq a b)) by lia | rewrite (proj2 (N.eqb_neq a b)) by lia]
  end; cbn [andb orb negb].

(** A character a Python [str] can hold that UTF-8 can encode. *)
Definition encodable (c : N) : Prop := c < 1114112 /\ is_surrogate c = false.

Lemma div_mod_64 (c : N) : c = 64 * (c / 64) + c mod 64 /\ c mod 64 < 64.
Proof. split; [apply N.div_mod; lia|apply N.mod_lt; lia]. Qed.

Ltac dec_step :=
  match goal with |- utf8_decode ?x = _ =>
    let t := eval hnf in (utf8_decode x) in change (utf8_decode x) with t end.

Lemma utf8_decode_1 (b1 : N) (rest : list N) :
  b1 < 128 -> utf8_decode (b1 :: rest) = b1 :: utf8_decode rest.
Proof. intros H1. dec_step. by ncmp. Qed.

Lemma utf8_decode_2 (b1 b2 : N) (rest : list N) :
  194 <= b1 <= 223 -> 128 <= b2 <= 191 ->
  utf8_decode (b1 :: b2 :: rest) = ((b1 - 192) * 64 + (b2 - 128)) :: utf8_decode rest.
Proof. intros H1 H2. dec_step. ncmp. unfold is_cont. by ncmp. Qed.

Lemma utf8_decode_3 (b1 b2 b3 : N) (rest : list N) :
  224 <= b1 <= 239 -> (if b1 =? 224 then 160 else 128) <= b2 <= (if b1 =? 237 then 159 else 191) ->
  128 <= b3 <= 191 ->
  utf8_decode (b1 :: b2 :: b3 :: rest)
  = (((b1 - 224) * 64 + (b2 - 128)) * 64 + (b3 - 128)) :: utf8_decode rest.
Proof.
  intros H1 H2 H3. dec_step. cbv zeta. revert H2.
  destruct (N.eqb_spec b1 224); destruct (N.eqb_spec b1 237); intros H2; ncmp; unfold is_cont; ncmp;
    (reflexivity || lia).
Qed.

Lemma utf8_decode_4 (b1 b2 b3 b4 : N) (rest : list N) :
  240 <= b1 <= 244 -> (if b1 =? 240 then 144 else 128) <= b2 <= (if b1 =? 244 then 143 else 191) ->
  128 <= b3 <= 191 -> 128 <= b4 <= 191 ->
  utf8_decode (b1 :: b2 :: b3 :: b4 :: rest)
  = ((((b1 - 240) * 64 + (b2 - 128)) * 64 + (b3 - 128)) * 64 + (b4 - 128)) :: utf8_decode rest.
Proof.
  intros H1 H2 H3 H4. dec_step. cbv zeta. revert H2.
  destruct (N.eqb_spec b1 240); destruct (N.eqb_spec b1 244); intros H2; ncmp; unfold is_cont; ncmp;
    (reflexivity || lia).
Qed.

Lemma utf8_char_roundtrip (c : N) :
  encodable c ->
  exists bs, utf8_encode_char c = Some bs /\
    (forall rest, utf8_decode (bs ++ rest) = c :: utf8_decode rest) /\
    (c < 128 -> bs = [c]) /\ (128 <= c -> Forall (fun b => 128 <= b < 256) bs).
Proof.
  intros [Hmax Hsur]. unfold is_surrogate in Hsur.
  unfold utf8_encode_char.
  destruct (div_mod_64 c) as [H1 R1]. set (q1 := c / 64) in *. set (r1 := c mod 64) in *.
  destruct (div_mod_64 q1) as [H2 R2]. set (q2 := q1 / 64) in *. set (r2 := q1 mod 64) in *.
  destruct (div_mod_64 q2) as [H3 R3]. set (q3 := q2 / 64) in *. set (r3 := q2 mod 64) in *.
  assert (E2 : c / 4096 = q2) by (unfold q2, q1; rewrite N.Div0.div_div; reflexivity).
  assert (E3 : c / 262144 = q3)
    by (unfold q3, q2, q1; rewrite !N.Div0.div_div; reflexivity).
  assert (E4 : (c / 4096) mod 64 = r3) by (rewrite E2; reflexivity).
  rewrite ?E4, ?E2, ?E3. fold q1 r1. fold q2 r2. clear E2 E3 E4.
  clearbody q1 r1 q2 r2 q3 r3. subst c q1 q2.
  set (c := 64 * (64 * (64 * q3 + r3) + r2) + r1) in *.
  destruct (N.ltb_spec c 128) as [A|A].
  { eexists; split; [reflexivity|]. split; [|split; [done|lia]].
    intros rest. by apply utf8_decode_1. }
  destruct (N.ltb_spec c 2048) as [B|B].
  { eexists; split; [reflexivity|].
    split; [|split; [lia|intros _; repeat (apply List.Forall_cons; [lia|]); apply List.Forall_nil]].
    intros rest. cbn [app]. rewrite utf8_decode_2 by lia. f_equal. lia. }
  destruct (N.ltb_spec c 65536) as [C|C].
  { unfold is_surrogate. rewrite Hsur.
    assert (Hs : c < 55296 \/ 57343 < c).
    { apply andb_false_iff in Hsur as [Hs|Hs]; apply N.leb_gt in Hs; lia. }
    assert (q3 = 0) by lia. subst q3.
    eexists; split; [reflexivity|].
    split; [|split; [lia|intros _; repeat (apply List.Forall_cons; [lia|]); apply List.Forall_nil]].
    intros rest. cbn [app]. rewrite utf8_decode_3; [f_equal; lia|lia| |lia].
    destruct (N.eqb_spec (224 + (64 * 0 + r3)) 224);
      destruct (N.eqb_spec (224 + (64 * 0 + r3)) 237); lia. }
  eexists; split; [reflexivity|].
  split; [|split; [lia|intros _; repeat (apply List.Forall_cons; [lia|]); apply List.Forall_nil]].
  intros rest. cbn [app]. rewrite utf8_decode_4; [f_equal; lia|lia| |lia|lia].
  destruct (N.eqb_spec (240 + q3) 240); destruct (N.eqb_spec (240 + q3) 244); lia.
Qed.

Local Close Scope N_scope.

(** ** URLs: [quote_plus] and [unquote_plus] *)

Local Open Scope N_scope.

Lemma utf8_encode_roundtrip (s : ustr) :
  Forall encodable s ->
  exists bs, utf8_encode s = Some bs /\ utf8_decode bs = s /\
    Forall (fun b => b < 256 /\ (b < 128 -> In b s)) bs /\ (s = [] -> bs = []) /\
    (s <> [] -> bs <> []).
Proof.
  induction 1 as [|c s Hc Hs IH]; [by exists []|].
  destruct IH as (bs & E & D & F & _ & _).
  destruct (utf8_char_roundtrip c Hc) as (b & Eb & Db & Ab & Nb).
  exists (b ++ bs). cbn [utf8_encode]. rewrite Eb, E.
  split; [done|]. split; [by rewrite Db, D|].
  split; [|split; [discriminate|]].
  - apply Forall_app. split.
    + destruct (N.ltb_spec c 128) as [L|L].
      * rewrite (Ab L). constructor; [|constructor]. split; [destruct Hc; lia|by left].
      * eapply Forall_impl; [exact (Nb L)|]. simpl. intros x Hx. split; lia.
    + eapply Forall_impl; [exact F|]. simpl. intros x [Hx Hin]. split; [done|by right; auto].
  - intros _ H. apply app_eq_nil in H as [-> ->]. specialize (Db []). discriminate Db.
Qed.

Lemma flat_map_ext_in {A B} (f g : A -> list B) (l : list A) :
  (forall x, In x l -> f x = g x) -> flat_map f l = flat_map g l.
Proof.
  induction l as [|x l IH]; intros H; [done|]. simpl.
  rewrite (H x (or_introl eq_refl)), IH; [done|]. intros y Hy. apply H. by right.
Qed.

Lemma map_flat_map' {A B C} (f : B -> C) (g : A -> list B) (l : list A) :
  map f (flat_map g l) = flat_map (fun x => map f (g x)) l.
Proof. induction l as [|x l IH]; [done|]. simpl. by rewrite map_app, IH. Qed.

Lemma quote_from_bytes_eq (bs : list N) (safe : ustr) :
  quote_from_bytes bs safe = flat_map (quoter (filter (fun c => c <? 128) safe)) bs.
Proof.
  unfold quote_from_bytes. destruct bs as [|b bs]; [done|].
  set (safe' := filter (fun c => c <? 128) safe).
  destruct (forallb _ _) eqn:F; [|done].
  rewrite forallb_forall in F. symmetry.
  rewrite <- (app_nil_r (b :: bs)) at 2. rewrite <- (flat_map_ext_in (fun x => [x])).
  - clear. induction (b :: bs) as [|x l IH]; [done|]. simpl. by rewrite IH.
  - intros x Hx. unfold quoter. by rewrite (F x Hx).
Qed.

Lemma hex_upper_range (n : N) : 48 <= hex_upper n.
Proof. unfold hex_upper. destruct (n <? 10); lia. Qed.

(** What [quote_plus] produces, byte by byte: a space becomes ['+'], an
    always-safe byte itself, any other byte [%XX]. *)
Lemma quote_plus_bytes (s q : ustr) :
  Forall encodable s -> quote_plus s = Some q ->
  exists bs, utf8_decode bs = s /\ Forall (fun b => b < 256) bs /\
    q = flat_map (fun b => if b =? 32 then [43] else quoter [] b) bs.
Proof.
  intros Hs Hq. destruct (utf8_encode_roundtrip s Hs) as (bs & E & D & F & N0 & N1).
  exists bs. split; [done|]. split; [eapply Forall_impl; [exact F|]; by intros x []|].
  unfold quote_plus in Hq. destruct (existsb (N.eqb 32) s) eqn:Sp; cbn [negb] in Hq.
  - destruct s as [|c s']; [discriminate|]. unfold quote in Hq. rewrite E in Hq.
    injection Hq as <-. rewrite quote_from_bytes_eq.
    change (filter (fun c => c <? 128) [32]) with [32]. unfold replace_char.
    rewrite map_flat_map'. apply flat_map_ext_in. intros b _.
    unfold quoter. cbn [existsb]. rewrite orb_false_r.
    destruct (N.eqb_spec b 32) as [->|Hb]; [done|].
    rewrite ?orb_false_r.
    destruct (always_safe b); cbn [map].
    + by rewrite (proj2 (N.eqb_neq b 32) Hb).
    + pose proof (hex_upper_range (b / 16)). pose proof (hex_upper_range (b mod 16)).
      by ncmp.
  - destruct s as [|c s'].
    + injection Hq as <-. by rewrite (N0 eq_refl).
    + unfold quote in Hq. rewrite E in Hq. injection Hq as <-.
      rewrite quote_from_bytes_eq. cbn [filter]. apply flat_map_ext_in. intros b Hb.
      destruct (N.eqb_spec b 32) as [->|]; [|done]. exfalso.
      rewrite List.Forall_forall in F. destruct (F 32 Hb) as [_ Hin].
      assert (Hin' : In 32 (c :: s')) by (apply Hin; lia).
      apply not_true_iff_false in Sp. apply Sp, existsb_exists. exists 32.
      split; [done|]. apply N.eqb_refl.
Qed.

Lemma split_on_ne (c x : N) (r : list N) :
  x <> c ->
  split_on c (x :: r) = match split_on c r with p :: ps => (x :: p) :: ps | [] => [[x]] end.
Proof. intros H. cbn [split_on]. by rewrite (proj2 (N.eqb_neq x c) H). Qed.

Lemma split_on_nonnil (c : N) (s : list N) : exists p ps, split_on c s = p :: ps.
Proof.
  induction s as [|x r [p [ps IH]]]; [by exists [], []|]. cbn [split_on].
  destruct (x =? c); rewrite IH; eauto.
Qed.

Lemma split_on_single (c : N) (s p : list N) : split_on c s = [p] -> p = s.
Proof.
  revert p. induction s as [|x r IH]; intros p; cbn [split_on].
  - by intros [= <-].
  - destruct (split_on_nonnil c r) as (p' & ps & E). rewrite E.
    destruct (x =? c); [discriminate|]. intros [= <- ->]. by rewrite (IH p' E).
Qed.

Lemma hex_val_37 : hex_val 37 = None.
Proof. reflexivity. Qed.

Lemma hex_val_ne_37 (h a : N) : hex_val h = Some a -> h <> 37.
Proof. intros H ->. by rewrite hex_val_37 in H. Qed.

(** The [split(b'%')] loop of [_unquote_impl] and the character reading
    agree. *)
Lemma split_loop_chars (n : nat) :
  forall s, (length s <= n)%nat -> forall p ps, split_on 37 s = p :: ps ->
  p ++ flat_map item_dec ps = unq_chars s.
Proof.
  induction n as [|n IH]; intros s Hlen p ps E.
  { destruct s; [|simpl in Hlen; lia]. by injection E as <- <-. }
  destruct s as [|x r]; [by injection E as <- <-|].
  simpl in Hlen.
  destruct (N.eqb_spec x 37) as [->|Hx].
  - cbn [split_on] in E. change (37 =? 37) with true in E. cbv iota in E.
    injection E as <- Er. cbn [app unq_chars]. change (37 =? 37) with true. cbv iota.
    destruct (split_on_nonnil 37 r) as (p1 & ps1 & Er1). rewrite Er1 in Er. subst ps.
    cbn [flat_map].
    assert (Hdef : item_dec p1 = 37 :: p1 ->
                   37 :: p1 ++ flat_map item_dec ps1 = 37 :: unq_chars r).
    { intros _. f_equal. apply (IH r); [lia|done]. }
    destruct r as [|h1 [|h2 r']].
    + injection Er1 as <- <-. apply Hdef. reflexivity.
    + destruct (N.eqb_spec h1 37) as [->|H1].
      * cbn in Er1. injection Er1 as <- <-. apply Hdef. reflexivity.
      * rewrite split_on_ne in Er1 by done. cbn in Er1. injection Er1 as <- <-.
        apply Hdef. reflexivity.
    + destruct (N.eqb_spec h1 37) as [->|H1].
      * cbn [split_on] in Er1. change (37 =? 37) with true in Er1. cbv iota in Er1.
        injection Er1 as <- _. cbn [item_dec app]. rewrite hex_val_37.
        rewrite <- Hdef by reflexivity. reflexivity.
      * destruct (N.eqb_spec h2 37) as [->|H2].
        -- rewrite split_on_ne in Er1 by done. cbn [split_on] in Er1.
           change (37 =? 37) with true in Er1. cbv iota in Er1.
           injection Er1 as <- _. cbn [item_dec app].
           destruct (hex_val h1); try rewrite hex_val_37; apply Hdef; reflexivity.
        -- rewrite !split_on_ne in Er1 by done.
           destruct (split_on_nonnil 37 r') as (p2 & ps2 & Er2). rewrite Er2 in Er1.
           injection Er1 as <- <-. cbn [item_dec].
           destruct (hex_val h1) as [a|] eqn:Ea; destruct (hex_val h2) as [b|] eqn:Eb;
             try (apply Hdef; cbn [item_dec]; rewrite ?Ea, ?Eb; reflexivity).
           cbn [app]. f_equal. apply (IH r'); [simpl in Hlen; lia|done].
  - destruct (split_on_nonnil 37 r) as (p1 & ps1 & Er1).
    rewrite split_on_ne, Er1 in E by done. injection E as <- <-.
    cbn [app unq_chars]. rewrite (proj2 (N.eqb_neq x 37) Hx). f_equal.
    apply (IH r); [lia|done].
Qed.

Lemma unquote_impl_chars (s : list N) : unquote_impl s = unq_chars s.
Proof.
  destruct s as [|x r]; [done|]. unfold unquote_impl.
  destruct (split_on_nonnil 37 (x :: r)) as (p & ps & E). rewrite E.
  pose proof (split_loop_chars (length (x :: r)) (x :: r) (le_n _) p ps E) as H.
  destruct ps as [|p' ps'].
  - cbn [flat_map] in H. rewrite app_nil_r in H. rewrite <- H.
    symmetry. exact (split_on_single _ _ _ E).
  - exact H.
Qed.

Lemma hex_val_upper (n : N) : n < 16 -> hex_val (hex_upper n) = Some n.
Proof.
  intros H. unfold hex_upper. destruct (N.ltb_spec n 10); unfold hex_val; ncmp; f_equal; lia.
Qed.

Lemma hex_upper_lt (n : N) : n < 16 -> hex_upper n < 128.
Proof. intros H. unfold hex_upper. destruct (N.ltb_spec n 10); lia. Qed.

Lemma always_safe_lt (b : N) : always_safe b = true -> b < 128.
Proof.
  unfold always_safe. intros H.
  repeat (apply orb_true_iff in H as [H|H]);
    repeat match goal with
    | H : _ && _ = true |- _ => apply andb_true_iff in H as [? ?]
    | H : (_ <=? _) = true |- _ => apply N.leb_le in H
    | H : (_ =? _) = true |- _ => apply N.eqb_eq in H
    end; lia.
Qed.

Lemma always_safe_not (b : N) : b = 32 \/ b = 37 \/ b = 43 \/ b = 58 \/ b = 64 \/ b = 47 ->
  always_safe b = false.
Proof. intros H. repeat destruct H as [->|H]; [..|subst]; reflexivity. Qed.

Lemma div16_lt (b : N) : b < 256 -> b / 16 < 16.
Proof. intros H. apply N.Div0.div_lt_upper_bound. lia. Qed.

Lemma mod16_lt (b : N) : b mod 16 < 16.
Proof. apply N.mod_lt. lia. Qed.

(** After [str.replace('+', ' ')], what [quote_plus] produced reads, byte
    by byte, as spaces, safe bytes and [%XX]. *)
Lemma replace_plus_bytes (bs : list N) :
  replace_char 43 32 (flat_map (fun b => if b =? 32 then [43] else quoter [] b) bs)
  = flat_map (fun b => if b =? 32 then [32] else quoter [] b) bs.
Proof.
  unfold replace_char. rewrite map_flat_map'. apply flat_map_ext_in. intros b _.
  destruct (N.eqb_spec b 32) as [->|Hb]; [reflexivity|].
  unfold quoter. cbn [existsb]. rewrite orb_false_r.
  destruct (always_safe b) eqn:Sb; cbn [map].
  - destruct (N.eqb_spec b 43) as [->|]; [discriminate|reflexivity].
  - pose proof (hex_upper_range (b / 16)). pose proof (hex_upper_range (b mod 16)). by ncmp.
Qed.

Lemma quoted_ascii (bs : list N) :
  Forall (fun b => b < 256) bs ->
  Forall (fun c => c < 128) (flat_map (fun b => if b =? 32 then [32] else quoter [] b) bs).
Proof.
  induction 1 as [|b bs Hb _ IH]; [constructor|]. cbn [flat_map].
  apply Forall_app. split; [|done].
  destruct (b =? 32); [apply List.Forall_cons; [lia|apply List.Forall_nil]|]. unfold quoter. cbn [existsb]. rewrite orb_false_r.
  destruct (always_safe b) eqn:Sb.
  - constructor; [by apply always_safe_lt|constructor].
  - apply List.Forall_cons; [lia|].
    apply List.Forall_cons; [apply hex_upper_lt, div16_lt, Hb|].
    apply List.Forall_cons; [apply hex_upper_lt, mod16_lt|apply List.Forall_nil].
Qed.

Lemma quoter_nil (b : N) :
  quoter [] b = if always_safe b then [b] else [37; hex_upper (b / 16); hex_upper (b mod 16)].
Proof. unfold quoter. cbn [existsb]. by rewrite orb_false_r. Qed.

Lemma unq_chars_quoted (bs : list N) :
  Forall (fun b => b < 256) bs ->
  unq_chars (flat_map (fun b => if b =? 32 then [32] else quoter [] b) bs) = bs.
Proof.
  induction 1 as [|b bs Hb _ IH]; [done|]. cbn [flat_map].
  destruct (N.eqb_spec b 32) as [->|Hne].
  { cbn [app unq_chars]. change (32 =? 37) with false. cbv iota.
    by rewrite IH. }
  rewrite quoter_nil. destruct (always_safe b) eqn:Sb.
  - cbn [app unq_chars]. destruct (N.eqb_spec b 37) as [->|]; [discriminate|]. by rewrite IH.
  - cbn [app unq_chars]. change (37 =? 37) with true. cbv iota.
    rewrite (hex_val_upper _ (div16_lt _ Hb)), (hex_val_upper _ (mod16_lt _)), IH.
    f_equal. symmetry. apply N.div_mod. lia.
Qed.

Lemma unq_chars_no_percent (x : list N) : existsb (N.eqb 37) x = false -> unq_chars x = x.
Proof.
  induction x as [|c x IH]; [done|]. cbn [existsb]. intros H.
  apply orb_false_iff in H as [Hc Hx]. cbn [unq_chars].
  rewrite N.eqb_sym, Hc. by rewrite IH.
Qed.

Lemma unquote_go_ascii (x run : list N) :
  Forall (fun c => c < 128) x -> unquote_go run x = utf8_decode (unquote_impl (rev run ++ x)).
Proof.
  intros H. revert run. induction H as [|c x Hc _ IH]; intros run.
  - by rewrite app_nil_r.
  - cbn [unquote_go]. rewrite (proj2 (N.ltb_lt c 128) Hc), IH. cbn [rev].
    by rewrite <- app_assoc.
Qed.

Lemma utf8_decode_ascii (bs : list N) : Forall (fun c => c < 128) bs -> utf8_decode bs = bs.
Proof. induction 1 as [|c bs Hc _ IH]; [done|]. by rewrite utf8_decode_1, IH. Qed.

(** [unquote_plus] undoes the byte form produced by [quote_plus]. *)
Lemma unquote_plus_bytes (bs : list N) :
  Forall (fun b => b < 256) bs ->
  unquote_plus (flat_map (fun b => if b =? 32 then [43] else quoter [] b) bs) = utf8_decode bs.
Proof.
  intros Hb. unfold unquote_plus. rewrite replace_plus_bytes.
  pose proof (quoted_ascii bs Hb) as Ha. pose proof (unq_chars_quoted bs Hb) as Hu.
  set (x := flat_map (fun b => if b =? 32 then [32] else quoter [] b) bs) in *.
  unfold unquote. destruct (existsb (N.eqb 37) x) eqn:P; cbn [negb].
  - rewrite unquote_go_ascii by done. cbn [rev app]. by rewrite unquote_impl_chars, Hu.
  - rewrite (unq_chars_no_percent x P) in Hu. rewrite Hu in Ha |- *.
    by rewrite utf8_decode_ascii.
Qed.

Lemma quote_plus_some (s : ustr) :
  Forall encodable s -> exists q, quote_plus s = Some q.
Proof.
  intros Hs. destruct (utf8_encode_roundtrip s Hs) as (bs & E & _).
  unfold quote_plus, quote.
  destruct (existsb (N.eqb 32) s); cbn [negb]; destruct s; try rewrite E; eauto.
Qed.

Lemma utf8_encode_char_none (c : N) : utf8_encode_char c = None <-> is_surrogate c = true.
Proof.
  unfold utf8_encode_char, is_surrogate.
  destruct (N.ltb_spec c 128) as [L1|L1]; [split; [discriminate|intros Hs; apply andb_true_iff in Hs as [Hs1 Hs2]; apply N.leb_le in Hs1, Hs2; lia]|].
  destruct (N.ltb_spec c 2048) as [L2|L2]; [split; [discriminate|intros Hs; apply andb_true_iff in Hs as [Hs1 Hs2]; apply N.leb_le in Hs1, Hs2; lia]|].
  destruct (N.ltb_spec c 65536) as [L3|L3].
  - destruct ((55296 <=? c) && (c <=? 57343)); split; done.
  - split; [discriminate|intros Hs; apply andb_true_iff in Hs as [Hs1 Hs2]; apply N.leb_le in Hs1, Hs2; lia].
Qed.

Lemma utf8_encode_none (s : ustr) :
  utf8_encode s = None <-> Exists (fun c => is_surrogate c = true) s.
Proof.
  induction s as [|c s IH]; cbn [utf8_encode].
  - split; [discriminate|intros H; inversion H].
  - rewrite Exists_cons, <- IH, <- utf8_encode_char_none.
    destruct (utf8_encode_char c), (utf8_encode s); intuition congruence.
Qed.

Lemma quote_plus_none (s : ustr) : quote_plus s = None <-> utf8_encode s = None.
Proof.
  unfold quote_plus, quote.
  destruct (existsb (N.eqb 32) s); cbn [negb]; destruct s as [|c s']; try done;
    destruct (utf8_encode (c :: s')); done.
Qed.

Lemma quote_plus_encodable (s q : ustr) :
  py_str s -> quote_plus s = Some q -> Forall encodable s.
Proof.
  intros Hs Hq.
  assert (Hn : ~ Exists (fun c => is_surrogate c = true) s).
  { rewrite <- utf8_encode_none, <- quote_plus_none, Hq. discriminate. }
  apply Forall_forall. intros c Hc. split.
  - by apply (proj1 (Forall_forall _ _) Hs).
  - apply not_true_iff_false. intros Hsc. apply Hn, Exists_exists. by exists c.
Qed.

Lemma hex_upper_safe (n : N) : n < 16 -> always_safe (hex_upper n) = true.
Proof.
  intros H. unfold hex_upper. destruct (N.ltb_spec n 10); unfold always_safe; ncmp;
    rewrite ?orb_true_r; reflexivity.
Qed.

(** Every character of a [quote_plus] result is always-safe, ['+'] or
    ['%']. *)
Lemma quote_plus_chars (s q : ustr) :
  Forall encodable s -> quote_plus s = Some q ->
  Forall (fun c => always_safe c || (c =? 43) || (c =? 37) = true) q.
Proof.
  intros Hs Hq. destruct (quote_plus_bytes s q Hs Hq) as (bs & _ & Hb & ->). clear Hq.
  induction Hb as [|b bs Hb _ IH]; [constructor|]. cbn [flat_map].
  apply Forall_app. split; [|done].
  destruct (b =? 32).
  { apply List.Forall_cons; [by rewrite orb_true_r, orb_true_l|apply List.Forall_nil]. }
  rewrite quoter_nil. destruct (always_safe b) eqn:Sb.
  - apply List.Forall_cons; [by rewrite Sb|apply List.Forall_nil].
  - apply List.Forall_cons; [by rewrite orb_true_r|].
    apply List.Forall_cons; [by rewrite hex_upper_safe by (apply div16_lt; lia)|].
    apply List.Forall_cons; [by rewrite hex_upper_safe by apply mod16_lt|apply List.Forall_nil].
Qed.

Lemma quote_plus_no_delims (s q : ustr) :
  Forall encodable s -> quote_plus s = Some q ->
  ~ In 58 q /\ ~ In 64 q /\ ~ In 47 q.
Proof.
  intros Hs Hq. pose proof (quote_plus_chars s q Hs Hq) as F.
  rewrite List.Forall_forall in F.
  split; [|split]; intros Hin; specialize (F _ Hin); revert F; reflexivity || discriminate.
Qed.

Lemma quote_plus_roundtrip (s q : ustr) :
  Forall encodable s -> quote_plus s = Some q -> unquote_plus q = s.
Proof.
  intros Hs Hq. destruct (quote_plus_bytes s q Hs Hq) as (bs & D & Hb & ->).
  by rewrite unquote_plus_bytes.
Qed.

Lemma split_once_app (sep a b : ustr) :
  sep <> [] -> (forall x, head sep = Some x -> ~ In x a) ->
  split_once sep (a ++ sep ++ b) = Some (a, b).
Proof.
  intros Hne Ha. induction a as [|y a IH].
  - destruct sep as [|x sep']; [done|]. cbn [app].
    destruct (sep' ++ b) eqn:E; cbn [split_once];
      (replace (is_prefix (x :: sep') _) with true;
       [rewrite <- E; change (x :: sep' ++ b) with ((x :: sep') ++ b);
        by rewrite drop_app_length
       |symmetry; apply is_prefix_iff; rewrite <- E; by exists b]).
  - destruct sep as [|x sep']; [done|]. cbn [app split_once].
    assert (Hxy : (x =? y) = false).
    { apply N.eqb_neq. intros ->. apply (Ha y eq_refl). by left. }
    cbn [is_prefix]. rewrite Hxy. cbn [andb].
    cbn [app] in IH. rewrite IH; [done|]. intros z Hz Hin. apply (Ha z Hz). by right.
Qed.

Lemma split_once_contains (sep s a b : ustr) :
  split_once sep s = Some (a, b) -> contains sep s = true.
Proof.
  revert a b. induction s as [|c r IH]; intros a b; cbn [split_once contains].
  - destruct (is_prefix sep []); [intros; reflexivity|discriminate].
  - destruct (is_prefix sep (c :: r)); [intros; reflexivity|]. cbn [orb].
    destruct (split_once sep r) as [[a' b']|] eqn:E; [|discriminate].
    intros _. by apply (IH a' b').
Qed.

Lemma url_config_lookup (d u p h po db : ustr) :
  url_config d u p h po db !! "db_type"%string = Some d /\
  url_config d u p h po db !! "user"%string = Some u /\
  url_config d u p h po db !! "password"%string = Some p /\
  url_config d u p h po db !! "host"%string = Some h /\
  url_config d u p h po db !! "port"%string = Some po /\
  url_config d u p h po db !! "database"%string = Some db.
Proof. unfold url_config. repeat split; by simplify_map_eq. Qed.

(** What [parse_url] recovers from a generated URL, up to the last split of
    [host:port]. *)
Lemma parse_generated (c : config) (u : ustr) :
  let dbt := config_get c "db_type" (codes "MySQL") in
  let user := config_get c "user" [] in
  let password := config_get c "password" [] in
  let host := config_get c "host" [] in
  let port := config_get c "port" [] in
  let database := config_get c "database" [] in
  py_str user -> py_str password -> py_str database ->
  ~ In 58 dbt -> ~ In 47 host -> ~ In 47 port ->
  generate_url c = Some u ->
  parse_url u =
    match split_once (codes ":") (host ++ codes ":" ++ port) with
    | Some (h, p) => url_config dbt user password h p database
    | None => ∅
    end.
Proof.
  intros dbt user password host port database Pu Pp Pd Hd Hh Hp Hg.
  unfold generate_url in Hg.
  change (config_get c "user" []) with user in Hg.
  change (config_get c "password" []) with password in Hg.
  change (config_get c "database" []) with database in Hg.
  change (config_get c "db_type" (codes "MySQL")) with dbt in Hg.
  change (config_get c "host" []) with host in Hg.
  change (config_get c "port" []) with port in Hg.
  destruct (quote_plus user) as [uq|] eqn:Eu; [|discriminate].
  destruct (quote_plus password) as [pq|] eqn:Ep; [|discriminate].
  destruct (quote_plus database) as [dq|] eqn:Ed; [|discriminate].
  apply (inj Some) in Hg. subst u.
  pose proof (quote_plus_encodable _ _ Pu Eu) as Cu.
  pose proof (quote_plus_encodable _ _ Pp Ep) as Cp.
  pose proof (quote_plus_encodable _ _ Pd Ed) as Cd.
  destruct (quote_plus_no_delims _ _ Cu Eu) as (U58 & U64 & _).
  destruct (quote_plus_no_delims _ _ Cp Ep) as (_ & P64 & _).
  unfold parse_url.
  rewrite (split_once_app (codes "://") dbt)
    by (done || (intros x Hx; vm_compute in Hx; injection Hx as <-; exact Hd)).
  replace (uq ++ codes ":" ++ pq ++ codes "@" ++ host ++ codes ":" ++ port ++ codes "/" ++ dq)
    with ((uq ++ codes ":" ++ pq) ++ codes "@" ++ ((host ++ codes ":" ++ port) ++ codes "/" ++ dq))
    by (by rewrite <- !app_assoc).
  rewrite (split_once_app (codes "@") (uq ++ codes ":" ++ pq)); [|done|].
  2:{ intros x Hx Hin. vm_compute in Hx. injection Hx as <-.
      apply in_app_or in Hin as [Hin|Hin]; [by apply U64|].
      destruct Hin as [Hin|Hin]; [discriminate|by apply P64]. }
  rewrite (split_once_app (codes ":") uq)
    by (done || (intros x Hx; vm_compute in Hx; injection Hx as <-; exact U58)).
  rewrite (split_once_app (codes "/") (host ++ codes ":" ++ port)); [|done|].
  2:{ intros x Hx Hin. vm_compute in Hx. injection Hx as <-.
      apply in_app_or in Hin as [Hin|Hin]; [by apply Hh|].
      destruct Hin as [Hin|Hin]; [discriminate|by apply Hp]. }
  destruct (split_once (codes ":") (host ++ codes ":" ++ port)) as [[h p]|]; [|done].
  by rewrite (quote_plus_roundtrip user uq), (quote_plus_roundtrip password pq),
    (quote_plus_roundtrip database dq).
Qed.

Lemma load_history_go_keys (lines : list config) :
  forall h, (forall u c, h !! u = Some c -> generate_url c = Some u) ->
  forall u c, load_history_go lines h !! u = Some c -> generate_url c = Some u.
Proof.
  induction lines as [|l lines IH]; intros h Hh; cbn [load_history_go]; [done|].
  destruct (generate_url l) as [url|] eqn:E; [|done].
  apply IH. intros u c. destruct (decide (u = url)) as [->|Hne].
  - rewrite lookup_insert_eq. by intros [= <-].
  - rewrite lookup_insert_ne by congruence. apply Hh.
Qed.

Local Close Scope N_scope.

(** ** Further properties: segmenter, reconstructor and [parse_sql] *)

Lemma all_space_strip (ws : str) :
  Forall (fun c => py_isspace c = true) ws -> strip ws = [].
Proof.
  intros H. pose proof (strip_ws ws [] [] H (List.Forall_nil _)) as E.
  by rewrite !app_nil_r in E.
Qed.

Lemma build_nil : build_executable_cte_sql [] = ∅.
Proof. reflexivity. Qed.

Lemma build_empty (l : list (str * str)) : build_executable_cte_sql l = ∅ <-> l = [].
Proof.
  split; [|intros ->; apply build_nil].
  intros H. pose proof (build_dom_eq l) as D. rewrite H, dom_empty_L in D.
  destruct l as [|[n b] l]; [done|]. exfalso.
  assert (Hn : n ∈ (list_to_set (map fst ((n, b) :: l)) : gset str)) by set_solver.
  rewrite <- D in Hn. set_solver.
Qed.

Lemma build_size (l : list (str * str)) :
  size (build_executable_cte_sql l) = size (list_to_set (map fst l) : gset str).
Proof. by rewrite <- build_dom_eq, size_dom. Qed.

(** The keys of the mapping built from a segmenter result are identifiers. *)
Lemma parse_build_keys (sql : str) (k : str) :
  k ∈ dom (build_executable_cte_sql (default [] (parse_cte_sql sql))) -> is_ident k = true.
Proof.
  destruct (parse_cte_sql sql) as [ctes|] eqn:E; cbn [default].
  - rewrite build_dom_eq, elem_of_list_to_set, list_elem_of_fmap.
    intros [[n b] [-> Hin]]. apply parse_entries in E.
    rewrite List.Forall_forall in E. apply list_elem_of_In in Hin.
    exact (proj1 (E _ Hin)).
  - rewrite build_nil, dom_empty_L. set_solver.
Qed.

(** Each statement text ends with its target name, and contains every
    body it re-declares. *)
Lemma spec_statement_ends (decls : list (str * str)) (name : str) :
  exists a, spec_statement decls name = a ++ name.
Proof.
  unfold spec_statement. eexists. rewrite !app_assoc. reflexivity.
Qed.

Lemma spec_decls_body (decls : list (str * str)) (n b : str) :
  In (n, b) decls -> exists x y, spec_decls decls = x ++ b ++ y.
Proof.
  induction decls as [|[n' b'] ds IH]; [done|]. intros [Heq|Hin].
  - injection Heq as -> ->. destruct ds as [|d ds'].
    + exists (n ++ codes " AS (" ++ NL), (NL ++ codes ")"). cbn [spec_decls].
      by rewrite <- !app_assoc.
    + exists (n ++ codes " AS (" ++ NL), (NL ++ codes ")" ++ codes "," ++ NL ++ spec_decls (d :: ds')).
      change (spec_decls ((n, b) :: d :: ds'))
        with (n ++ codes " AS (" ++ NL ++ b ++ NL ++ codes ")" ++ codes "," ++ NL ++ spec_decls (d :: ds')).
      by rewrite <- !app_assoc.
  - destruct (IH Hin) as (x & y & Hxy). destruct ds as [|d ds']; [done|].
    exists (n' ++ codes " AS (" ++ NL ++ b' ++ NL ++ codes ")" ++ codes "," ++ NL ++ x), y.
    change (spec_decls ((n', b') :: d :: ds'))
      with (n' ++ codes " AS (" ++ NL ++ b' ++ NL ++ codes ")" ++ codes "," ++ NL ++ spec_decls (d :: ds')).
    rewrite Hxy. by rewrite <- !app_assoc.
Qed.

Lemma contains_app_mid (p a m b : list N) :
  contains p m = true -> contains p (a ++ m ++ b) = true.
Proof.
  rewrite !contains_iff. intros (x & y & ->). exists (a ++ x), (y ++ b).
  by rewrite <- !app_assoc.
Qed.

Lemma limit_clause_upper (limit_rows : N) :
  contains (codes "LIMIT") (py_upper (limit_clause limit_rows)) = true.
Proof.
  unfold limit_clause. rewrite py_upper_app.
  change (py_upper (codes " LIMIT ")) with ([32%N] ++ codes "LIMIT" ++ [32%N]).
  apply contains_iff. eexists [32%N], _. by rewrite <- !app_assoc.
Qed.

(** [execute_sql] leaves a statement unchanged when "LIMIT" occurs in its
    upper-case form. *)
Lemma execute_sql_text_keep (sql : str) (limit_rows : N) (disable_limit : bool) :
  contains (codes "LIMIT") (py_upper sql) = true ->
  execute_sql_text sql limit_rows disable_limit = sql.
Proof. intros H. by rewrite execute_sql_text_eq, H. Qed.


(** X1: every CTE name returned by [parse_cte_sql] matches the identifier
    pattern [[a-zA-Z_][a-zA-Z0-9_]*]. *)
Theorem parse_cte_sql_names_identifiers (sql : str) (ctes : list (str * str)) :
  parse_cte_sql sql = Some ctes -> Forall (fun '(n, _) => is_ident n = true) ctes.
Proof.
  intros H. apply parse_entries in H. induction H as [|[n b] l [Hn _] _ IH]; by constructor.
Qed.

Lemma parse_cte_sql_names_identifiers_witness :
  parse_cte_sql (codes "with t_1 as (select 1), u as (select 2) select * from u")
    = Some [(codes "t_1", codes "select 1"); (codes "u", codes "select 2")] /\
  Forall (fun '(n, _) => is_ident n = true) [(codes "t_1", codes "select 1"); (codes "u", codes "select 2")].
Proof.
  assert (H : parse_cte_sql (codes "with t_1 as (select 1), u as (select 2) select * from u")
    = Some [(codes "t_1", codes "select 1"); (codes "u", codes "select 2")]) by (vm_compute; reflexivity).
  split; [exact H|]. exact (parse_cte_sql_names_identifiers _ _ H).
Defined.

(** X2: every CTE body returned by [parse_cte_sql] is already stripped:
    [strip] leaves it unchanged. *)
Theorem parse_cte_sql_bodies_stripped (sql : str) (ctes : list (str * str)) :
  parse_cte_sql sql = Some ctes -> Forall (fun '(_, b) => strip b = b) ctes.
Proof.
  intros H. apply parse_entries in H.
  induction H as [|[n b] l [_ [x ->]] _ IH]; constructor; [apply strip_idem|exact IH].
Qed.

Lemma parse_cte_sql_bodies_stripped_witness :
  parse_cte_sql (codes "WITH a AS (  select 1 ) select * from a")
    = Some [(codes "a", codes "select 1")] /\
  Forall (fun '(_, b) => strip b = b) [(codes "a", codes "select 1")].
Proof.
  assert (H : parse_cte_sql (codes "WITH a AS (  select 1 ) select * from a")
    = Some [(codes "a", codes "select 1")]) by (vm_compute; reflexivity).
  split; [exact H|]. exact (parse_cte_sql_bodies_stripped _ _ H).
Defined.

(** X3: whitespace ([str.isspace]) added before or after the input does not
    change the result of [parse_cte_sql]. *)
Theorem parse_cte_sql_surrounding_space (ws1 sql ws2 : str) :
  Forall (fun c => py_isspace c = true) ws1 ->
  Forall (fun c => py_isspace c = true) ws2 ->
  parse_cte_sql (ws1 ++ sql ++ ws2) = parse_cte_sql sql.
Proof. intros H1 H2. unfold parse_cte_sql. by rewrite strip_ws. Qed.

Lemma parse_cte_sql_surrounding_space_witness :
  parse_cte_sql ([10%N; 9%N] ++ codes "with a as (select 1) select 2" ++ [13%N; 160%N])
  = parse_cte_sql (codes "with a as (select 1) select 2").
Proof.
  apply parse_cte_sql_surrounding_space; repeat constructor.
Defined.

(** X4: the keys of [build_executable_cte_sql ctes] are exactly the names
    occurring in [ctes]. *)
Theorem build_executable_keys (ctes : list (str * str)) :
  dom (build_executable_cte_sql ctes) = list_to_set (map fst ctes).
Proof. apply build_dom_eq. Qed.

(** X5: [build_executable_cte_sql] returns an empty mapping exactly when it
    is given no CTE. *)
Theorem build_executable_empty_iff (ctes : list (str * str)) :
  build_executable_cte_sql ctes = ∅ <-> ctes = [].
Proof. apply build_empty. Qed.

(** X6: the value of [build_executable_cte_sql ctes] at [k] is [v] exactly
    when some entry [K] of [ctes] is named [k], no later entry is named [k],
    and [v] is the statement that re-declares entries [0..K] and selects
    from [k]. *)
Theorem build_executable_lookup_iff (ctes : list (str * str)) (k v : str) :
  build_executable_cte_sql ctes !! k = Some v <->
  exists K b, ctes !! K = Some (k, b) /\ (k ∉ map fst (drop (S K) ctes)) /\
    v = spec_statement (take (S K) ctes) k.
Proof. apply build_lookup. Qed.

(** X7: [parse_sql] on a text made only of whitespace shows the warning and
    leaves [self.cte_dict] unchanged. *)
Theorem parse_sql_blank (text : str) (cte_dict : gmap str str) :
  Forall (fun c => py_isspace c = true) text ->
  parse_sql text cte_dict = (cte_dict, ParseEmptyWarning).
Proof. intros H. unfold parse_sql. by rewrite all_space_strip. Qed.

Lemma parse_sql_blank_witness :
  parse_sql [32%N; 10%N; 9%N] (<[codes "a" := codes "x"]> ∅)
  = (<[codes "a" := codes "x"]> ∅, ParseEmptyWarning).
Proof. apply parse_sql_blank. repeat constructor. Defined.

(** X8: on a non-blank text, [parse_sql] sets [self.cte_dict] to the mapping
    built from the segmenter's result; it reports that no subquery was found
    exactly when that result is empty, and otherwise reports the number of
    distinct CTE names. *)
Theorem parse_sql_outcome (text : str) (cte_dict : gmap str str) (ctes : list (str * str)) :
  strip text <> [] -> parse_cte_sql (strip text) = Some ctes ->
  parse_sql text cte_dict =
    (build_executable_cte_sql ctes,
     match ctes with
     | [] => ParseNoSubqueries
     | _ :: _ => ParseSuccess (size (list_to_set (map fst ctes) : gset str))
     end).
Proof.
  intros Hne Hp. unfold parse_sql. destruct (strip text) as [|c r] eqn:E; [done|].
  rewrite Hp. change (default [] (Some ctes)) with ctes. destruct (decide (build_executable_cte_sql ctes = ∅)) as [H|H].
  - apply build_empty in H as ->. reflexivity.
  - destruct ctes as [|e l]; [exfalso; apply H, build_nil|]. by rewrite build_size.
Qed.

Lemma parse_sql_outcome_witness :
  parse_sql (codes "with a as (select 1), a as (select 2) select * from a") ∅
  = (build_executable_cte_sql [(codes "a", codes "select 1"); (codes "a", codes "select 2")],
     ParseSuccess 1).
Proof.
  apply (parse_sql_outcome _ ∅ [(codes "a", codes "select 1"); (codes "a", codes "select 2")]);
    [discriminate|vm_compute; reflexivity].
Defined.

(** X9: after [parse_sql], every key of [self.cte_dict] that was not there
    before is an identifier; when the text is not blank every key is. *)
Theorem parse_sql_keys_identifiers (text : str) (cte_dict d : gmap str str) (m : parse_sql_msg) :
  parse_sql text cte_dict = (d, m) -> m <> ParseEmptyWarning ->
  forall k, k ∈ dom d -> is_ident k = true.
Proof.
  unfold parse_sql. destruct (strip text) as [|c r].
  { intros [= <- <-] Hm. by destruct Hm. }
  set (e := build_executable_cte_sql _).
  intros H Hm k Hk. assert (d = e) as ->.
  { destruct (decide (e = ∅)); injection H as <- _; reflexivity. }
  exact (parse_build_keys _ _ Hk).
Qed.

Lemma parse_sql_keys_identifiers_witness :
  codes "a" ∈ dom (fst (parse_sql (codes "with a as (select 1) select * from a") ∅)) /\
  is_ident (codes "a") = true.
Proof.
  assert (Hk : codes "a" ∈ dom (fst (parse_sql (codes "with a as (select 1) select * from a") ∅))).
  { apply elem_of_dom. vm_compute. eexists. reflexivity. }
  split; [exact Hk|].
  apply (parse_sql_keys_identifiers (codes "with a as (select 1) select * from a") ∅
    (fst (parse_sql (codes "with a as (select 1) select * from a") ∅))
    (snd (parse_sql (codes "with a as (select 1) select * from a") ∅)));
    [vm_compute; reflexivity|vm_compute; discriminate|exact Hk].
Defined.

(** ** Further properties: [execute_sql] and [execute_cte] *)

(** X10: the statement [execute_sql] runs is [sql] unchanged when "LIMIT"
    occurs anywhere in [sql.upper()], and [sql + " LIMIT <limit_rows>"]
    otherwise, whatever [disable_limit] is: the [endswith] test never
    decides the outcome. *)
Theorem execute_sql_limit_rule (sql : str) (limit_rows : N) (disable_limit : bool) :
  execute_sql_text sql limit_rows disable_limit
  = if contains (codes "LIMIT") (py_upper sql) then sql else sql ++ limit_clause limit_rows.
Proof. apply execute_sql_text_eq. Qed.

(** X11: [execute_sql] never appends a second limit: running its rewrite on
    its own output changes nothing. *)
Theorem execute_sql_limit_idempotent (sql : str) (limit_rows limit_rows' : N)
    (disable_limit disable_limit' : bool) :
  execute_sql_text (execute_sql_text sql limit_rows disable_limit) limit_rows' disable_limit'
  = execute_sql_text sql limit_rows disable_limit.
Proof.
  apply execute_sql_text_keep. rewrite execute_sql_text_eq.
  destruct (contains (codes "LIMIT") (py_upper sql)) eqn:C; [exact C|].
  rewrite py_upper_app. rewrite <- (app_nil_r (py_upper (limit_clause limit_rows))).
  apply contains_app_mid, limit_clause_upper.
Qed.

(** X12: [execute_cte] on a statement built by [build_executable_cte_sql]
    never adds a row limit when the selected CTE name contains "limit" in
    any case: the statement runs unchanged. *)
Theorem execute_cte_limit_in_name (ctes : list (str * str)) (k : str) (query_limit : N) :
  contains (codes "LIMIT") (py_upper k) = true ->
  execute_cte (build_executable_cte_sql ctes) k query_limit
  = option_map (fun v => (strip v, v)) (build_executable_cte_sql ctes !! k).
Proof.
  intros Hk. unfold execute_cte.
  destruct (build_executable_cte_sql ctes !! k) as [v|] eqn:E; [|done]. cbn [option_map].
  apply build_lookup in E as (K & b & _ & _ & ->).
  destruct (spec_statement_ends (take (S K) ctes) k) as [a ->].
  rewrite execute_sql_text_keep; [done|].
  rewrite py_upper_app, <- (app_nil_r (py_upper k)). by apply contains_app_mid.
Qed.

Lemma execute_cte_limit_in_name_witness :
  execute_cte (build_executable_cte_sql [(codes "unlimited", codes "select 1")]) (codes "unlimited") 1000
  = option_map (fun v => (strip v, v))
      (build_executable_cte_sql [(codes "unlimited", codes "select 1")] !! codes "unlimited").
Proof. apply execute_cte_limit_in_name. vm_compute. reflexivity. Defined.

(** X13: [execute_cte] never adds a row limit when the body of the selected
    CTE contains "limit" in any case, e.g. a body with its own LIMIT. *)
Theorem execute_cte_limit_in_body (ctes : list (str * str)) (K : nat) (k b : str) (query_limit : N) :
  ctes !! K = Some (k, b) -> (k ∉ map fst (drop (S K) ctes)) ->
  contains (codes "LIMIT") (py_upper b) = true ->
  execute_cte (build_executable_cte_sql ctes) k query_limit
  = Some (strip (spec_statement (take (S K) ctes) k), spec_statement (take (S K) ctes) k).
Proof.
  intros HK Hn Hb. unfold execute_cte.
  rewrite (proj2 (build_lookup ctes k _)) by eauto.
  rewrite execute_sql_text_keep; [done|].
  assert (Hin : In (k, b) (take (S K) ctes)).
  { apply list_elem_of_In, list_elem_of_lookup. exists K. rewrite lookup_take_lt by lia. exact HK. }
  destruct (spec_decls_body _ _ _ Hin) as (x & y & Hxy).
  unfold spec_statement. rewrite Hxy, !py_upper_app, <- !app_assoc.
  rewrite (app_assoc (py_upper (codes "WITH"))), (app_assoc (py_upper (codes "WITH") ++ py_upper NL)).
  by apply contains_app_mid.
Qed.

Lemma execute_cte_limit_in_body_witness :
  execute_cte (build_executable_cte_sql [(codes "a", codes "select 1 limit 5")]) (codes "a") 1000
  = Some (strip (spec_statement [(codes "a", codes "select 1 limit 5")] (codes "a")),
          spec_statement [(codes "a", codes "select 1 limit 5")] (codes "a")).
Proof.
  apply (execute_cte_limit_in_body [(codes "a", codes "select 1 limit 5")] 0 _ (codes "select 1 limit 5"));
    [reflexivity|simpl; set_solver|vm_compute; reflexivity].
Defined.

(** ** Further properties: URLs and the connection history *)

Local Open Scope N_scope.

Lemma existsb_eqb_notin (a : N) (l : list N) : existsb (N.eqb a) l = false -> ~ In a l.
Proof.
  intros H Hin. apply not_true_iff_false in H. apply H, existsb_exists.
  exists a. split; [exact Hin|apply N.eqb_refl].
Qed.

Lemma forallb_py_str (l : ustr) : forallb (fun x => x <? 1114112) l = true -> py_str l.
Proof.
  intros H. apply List.Forall_forall. intros x Hx.
  apply N.ltb_lt. exact (proj1 (forallb_forall _ _) H x Hx).
Qed.

Lemma url_fields_ok_spec (c : config) :
  url_fields_ok c = true ->
  py_str (config_get c "user" []) /\ py_str (config_get c "password" []) /\
  py_str (config_get c "database" []) /\ ~ In 58 (config_get c "db_type" (codes "MySQL")) /\
  ~ In 47 (config_get c "host" []) /\ ~ In 47 (config_get c "port" []).
Proof.
  unfold url_fields_ok. rewrite !andb_true_iff, !negb_true_iff, !forallb_app, !existsb_app,
    !andb_true_iff, orb_false_iff.
  intros [[[Hu [Hp Hd]] Ht] [Hh Hpo]].
  repeat split; (apply forallb_py_str; assumption) || (apply existsb_eqb_notin; assumption).
Qed.

Lemma url_config_form (d u p h po db : ustr) :
  config_form (url_config d u p h po db) = (d, h, po, u, p, db).
Proof.
  destruct (url_config_lookup d u p h po db) as (E1 & E2 & E3 & E4 & E5 & E6).
  unfold config_form, config_get. by rewrite E1, E2, E3, E4, E5, E6.
Qed.

Lemma url_config_get (d u p h po db dflt : ustr) :
  config_get (url_config d u p h po db) "host" dflt = h /\
  config_get (url_config d u p h po db) "port" dflt = po.
Proof.
  destruct (url_config_lookup d u p h po db) as (_ & _ & _ & E4 & E5 & _).
  unfold config_get. by rewrite E4, E5.
Qed.

Lemma url_config_nonempty (d u p h po db : ustr) : url_config d u p h po db <> ∅.
Proof.
  intros H. destruct (url_config_lookup d u p h po db) as (E1 & _).
  rewrite H, lookup_empty in E1. discriminate.
Qed.

Lemma parse_generated_fields (c : config) (u : ustr) :
  url_fields_ok c = true -> generate_url c = Some u ->
  parse_url u =
    match split_once (codes ":") (config_get c "host" [] ++ codes ":" ++ config_get c "port" []) with
    | Some (h, p) => url_config (config_get c "db_type" (codes "MySQL")) (config_get c "user" [])
                       (config_get c "password" []) h p (config_get c "database" [])
    | None => ∅
    end.
Proof.
  intros Hok Hg. destruct (url_fields_ok_spec c Hok) as (Pu & Pp & Pd & Hd & Hh & Hp).
  exact (parse_generated c u Pu Pp Pd Hd Hh Hp Hg).
Qed.

Lemma parse_generated_safe (c : config) (u : ustr) :
  url_safe_config c = true -> generate_url c = Some u ->
  parse_url u = url_config (config_get c "db_type" (codes "MySQL")) (config_get c "user" [])
                  (config_get c "password" []) (config_get c "host" []) (config_get c "port" [])
                  (config_get c "database" []).
Proof.
  unfold url_safe_config. rewrite andb_true_iff, negb_true_iff. intros [Hok Hh] Hg.
  rewrite (parse_generated_fields c u Hok Hg).
  rewrite (split_once_app (codes ":") (config_get c "host" [])); [reflexivity|discriminate|].
  intros x Hx. vm_compute in Hx. injection Hx as <-. by apply existsb_eqb_notin.
Qed.

Lemma parse_generated_form (c : config) (u : ustr) :
  url_safe_config c = true -> generate_url c = Some u -> config_form (parse_url u) = config_form c.
Proof. intros Hs Hg. by rewrite (parse_generated_safe c u Hs Hg), url_config_form. Qed.

Lemma load_history_keys_valid (lines : list config) (u : ustr) (c : config) :
  load_history lines !! u = Some c -> generate_url c = Some u.
Proof.
  apply load_history_go_keys. intros u' c'. by rewrite lookup_empty.
Qed.

Lemma load_history_go_stop (ls1 ls2 : list config) (c : config) (h : gmap ustr config) :
  generate_url c = None -> load_history_go (ls1 ++ c :: ls2) h = load_history_go ls1 h.
Proof.
  intros Hc. revert h. induction ls1 as [|l ls1 IH]; intros h; cbn [app load_history_go].
  - by rewrite Hc.
  - destruct (generate_url l); [apply IH|reflexivity].
Qed.

Lemma load_history_go_app (ls1 ls2 : list config) (h : gmap ustr config) :
  Forall (fun c => generate_url c <> None) ls1 ->
  load_history_go (ls1 ++ ls2) h = load_history_go ls2 (load_history_go ls1 h).
Proof.
  intros H. revert h. induction H as [|l ls1 Hl _ IH]; intros h; [reflexivity|].
  cbn [app load_history_go]. destruct (generate_url l); [apply IH|done].
Qed.

Lemma fmap_list_map {A B} (f : A -> B) (l : list A) : f <$> l = map f l.
Proof. induction l as [|x l IH]; [done|]. cbn. by rewrite <- IH. Qed.

Lemma load_history_go_entries (l : list (ustr * config)) (m : gmap ustr config) :
  Forall (fun '(u, c) => generate_url c = Some u) l -> NoDup l.*1 ->
  load_history_go l.*2 m = list_to_map l ∪ m.
Proof.
  intros Hv. revert m. induction Hv as [|[u c] l Hu _ IH]; intros m Hnd.
  - cbn. by rewrite map_empty_union.
  - cbn [fmap list_fmap fst snd] in Hnd |- *. apply NoDup_cons in Hnd as [Hn Hnd].
    cbn [load_history_go]. rewrite Hu, IH by exact Hnd.
    rewrite <- insert_union_r by (by apply not_elem_of_list_to_map_1).
    by rewrite insert_union_l.
Qed.

(** Reading back the values of a history whose keys are the URLs of their
    configurations gives that history, whatever the order of the lines. *)
Lemma load_history_values (h : gmap ustr config) (ls : list config) :
  (forall u c, h !! u = Some c -> generate_url c = Some u) ->
  ls ≡ₚ (map_to_list h).*2 -> load_history ls = h.
Proof.
  intros Hk Hp. rewrite fmap_list_map in Hp.
  destruct (Permutation_map_inv snd (map_to_list h) Hp) as (l3 & -> & Hl3).
  assert (Hv : Forall (fun '(u, c) => generate_url c = Some u) l3).
  { apply List.Forall_forall. intros [u c] Hin. apply Hk, elem_of_map_to_list.
    apply list_elem_of_In. by apply (Permutation_in _ (Permutation_sym Hl3)). }
  assert (Hnd : NoDup l3.*1) by (rewrite <- Hl3; apply NoDup_fst_map_to_list).
  unfold load_history. rewrite <- fmap_list_map, load_history_go_entries by done.
  rewrite map_union_empty, <- (list_to_map_proper _ _ (NoDup_fst_map_to_list h) Hl3).
  apply list_to_map_to_list.
Qed.

Lemma config_get_filter (c : config) (k : string) :
  config_get (filter (fun kv => kv.2 <> []) c) k [] = [] <-> config_get c k [] = [].
Proof.
  unfold config_get. rewrite map_lookup_filter.
  destruct (c !! k) as [v|]; cbn [mbind option_bind default from_option]; [|done].
  cbn [snd id]. case_guard as Hv; cbn.
  - done.
  - by subst v.
Qed.

Lemma config_get_filter_eq (c : config) (k : string) :
  config_get (filter (fun kv => kv.2 <> []) c) k [] = config_get c k [].
Proof.
  unfold config_get. rewrite map_lookup_filter.
  destruct (c !! k) as [v|]; cbn [mbind option_bind default from_option]; [|done].
  cbn [snd id]. case_guard as Hv; cbn.
  - done.
  - destruct (decide (v = [])) as [->|Hne]; [done|by destruct Hv].
Qed.

Lemma generate_url_none_surrogate (c : config) :
  generate_url c = None <->
  Exists (fun x => is_surrogate x = true)
    (config_get c "user" [] ++ config_get c "password" [] ++ config_get c "database" []).
Proof.
  unfold generate_url. rewrite !Exists_app, <- !utf8_encode_none, <- !quote_plus_none.
  destruct (quote_plus (config_get c "user" [])), (quote_plus (config_get c "password" [])),
    (quote_plus (config_get c "database" [])); intuition congruence.
Qed.





(** X14: for a string without lone surrogates, [quote_plus] succeeds and
    [unquote_plus] gives the string back. *)
Theorem quote_plus_unquote_plus (s : ustr) :
  Forall encodable s -> exists q, quote_plus s = Some q /\ unquote_plus q = s.
Proof.
  intros Hs. destruct (quote_plus_some s Hs) as [q Hq]. exists q.
  split; [exact Hq|exact (quote_plus_roundtrip s q Hs Hq)].
Qed.

Lemma quote_plus_unquote_plus_witness :
  exists q, quote_plus [104; 32; 233; 37; 43; 8364; 128512] = Some q /\
    unquote_plus q = [104; 32; 233; 37; 43; 8364; 128512].
Proof. apply quote_plus_unquote_plus. repeat constructor. Defined.

(** X15: the output of [quote_plus] is made of the characters
    [A-Z a-z 0-9 _ . - ~], ['+'] and ['%'] only; in particular it has no
    [':'], ['@'] or ['/']. *)
Theorem quote_plus_alphabet (s q : ustr) :
  py_str s -> quote_plus s = Some q ->
  Forall (fun c => always_safe c || (c =? 43) || (c =? 37) = true) q.
Proof.
  intros Hs Hq. exact (quote_plus_chars s q (quote_plus_encodable s q Hs Hq) Hq).
Qed.

Lemma quote_plus_alphabet_witness :
  Forall (fun c => always_safe c || (c =? 43) || (c =? 37) = true)
    (default [] (quote_plus (codes "p@ss:w/rd +%" ++ [233]))).
Proof.
  apply (quote_plus_alphabet (codes "p@ss:w/rd +%" ++ [233])); [repeat constructor|].
  vm_compute. reflexivity.
Defined.


(** X17: [parse_url] recovers the fields of the configuration from the URL
    [_generate_url] made, when the quoted fields are Python strings, the
    database type has no [':'], the host no [':'] or ['/'] and the port no
    ['/']. *)
Theorem parse_url_generate_url (c : config) (u : ustr) :
  url_safe_config c = true -> generate_url c = Some u ->
  config_form (parse_url u) = config_form c.
Proof. apply parse_generated_form. Qed.

Lemma parse_url_generate_url_witness :
  config_form (parse_url (default [] (generate_url sample_config))) = config_form sample_config.
Proof.
  apply parse_url_generate_url; vm_compute; reflexivity.
Defined.

(** X18: a host that contains [':'] (an IPv6 address) is cut at its first
    [':'] by [parse_url]; the rest of it goes to the front of the port. *)
Theorem parse_url_host_with_colon (c : config) (u h1 h2 : ustr) :
  url_fields_ok c = true -> config_get c "host" [] = h1 ++ codes ":" ++ h2 ->
  existsb (N.eqb 58) h1 = false -> generate_url c = Some u ->
  config_get (parse_url u) "host" [] = h1 /\
  config_get (parse_url u) "port" [] = h2 ++ codes ":" ++ config_get c "port" [].
Proof.
  intros Hok Hh H1 Hg. rewrite (parse_generated_fields c u Hok Hg), Hh.
  replace ((h1 ++ codes ":" ++ h2) ++ codes ":" ++ config_get c "port" [])
    with (h1 ++ codes ":" ++ (h2 ++ codes ":" ++ config_get c "port" []))
    by (by rewrite <- !app_assoc).
  rewrite (split_once_app (codes ":") h1); [|discriminate|].
  2:{ intros x Hx. vm_compute in Hx. injection Hx as <-. by apply existsb_eqb_notin. }
  destruct (url_config_get (config_get c "db_type" (codes "MySQL")) (config_get c "user" [])
    (config_get c "password" []) h1 (h2 ++ codes ":" ++ config_get c "port" [])
    (config_get c "database" []) []) as (E4 & E5).
  by rewrite E4, E5.
Qed.

Lemma parse_url_host_with_colon_witness :
  config_get (parse_url (default [] (generate_url sample_config_ipv6))) "host" [] = [] /\
  config_get (parse_url (default [] (generate_url sample_config_ipv6))) "port" []
    = codes ":1" ++ codes ":" ++ config_get sample_config_ipv6 "port" [].
Proof.
  apply (parse_url_host_with_colon sample_config_ipv6 _ [] (codes ":1"));
    vm_compute; reflexivity.
Defined.

(** X19: [parse_url] returns [{}] for a string without ["://"]. *)
Theorem parse_url_no_scheme (url : ustr) :
  contains (codes "://") url = false -> parse_url url = ∅.
Proof.
  intros H. unfold parse_url.
  destruct (split_once (codes "://") url) as [[a b]|] eqn:E; [|reflexivity].
  apply split_once_contains in E. congruence.
Qed.

Lemma parse_url_no_scheme_witness : parse_url (codes "localhost:3306/db") = ∅.
Proof. apply parse_url_no_scheme. vm_compute. reflexivity. Defined.

(** X21: two configurations that satisfy the conditions of X17 and get the
    same history URL have the same form fields: deduplication by URL only
    merges connections that fill the form identically. *)
Theorem generate_url_injective (c1 c2 : config) (u : ustr) :
  url_safe_config c1 = true -> url_safe_config c2 = true ->
  generate_url c1 = Some u -> generate_url c2 = Some u ->
  config_form c1 = config_form c2.
Proof.
  intros H1 H2 G1 G2.
  by rewrite <- (parse_generated_form c1 u H1 G1), <- (parse_generated_form c2 u H2 G2).
Qed.

Lemma generate_url_injective_witness :
  config_form sample_config = config_form (<["charset" := codes "utf8"]> sample_config).
Proof.
  apply (generate_url_injective _ _ (default [] (generate_url sample_config)));
    vm_compute; reflexivity.
Defined.

(** X22: every entry of the dictionary [load_history] returns is stored
    under the URL [_generate_url] makes for it. *)
Theorem load_history_keys (lines : list config) (u : ustr) (c : config) :
  load_history lines !! u = Some c -> generate_url c = Some u.
Proof. apply load_history_keys_valid. Qed.

Lemma load_history_keys_witness :
  generate_url sample_config = Some (default [] (generate_url sample_config)).
Proof.
  apply (load_history_keys [sample_config_ipv6; sample_config]). vm_compute. reflexivity.
Defined.

(** X23: a line whose configuration makes [_generate_url] raise ends
    [load_history]: that line and all later ones are ignored. *)
Theorem load_history_stops (ls1 ls2 : list config) (c : config) :
  generate_url c = None -> load_history (ls1 ++ c :: ls2) = load_history ls1.
Proof. apply load_history_go_stop. Qed.

Lemma load_history_stops_witness :
  load_history ([sample_config] ++ sample_config_surrogate :: [sample_config_ipv6])
  = load_history [sample_config].
Proof. apply load_history_stops. vm_compute. reflexivity. Defined.

(** X24: when every earlier line succeeds, a later line with the same URL
    replaces the earlier entry of [load_history]. *)
Theorem load_history_last_wins (ls : list config) (c : config) (u : ustr) :
  Forall (fun c' => generate_url c' <> None) ls -> generate_url c = Some u ->
  load_history (ls ++ [c]) = <[u := c]> (load_history ls).
Proof.
  intros Hls Hc. unfold load_history. rewrite load_history_go_app by exact Hls.
  cbn [load_history_go]. by rewrite Hc.
Qed.

Lemma load_history_last_wins_witness :
  load_history ([sample_config] ++ [<["charset" := codes "utf8"]> sample_config])
  = <[default [] (generate_url sample_config) := <["charset" := codes "utf8"]> sample_config]>
      (load_history [sample_config]).
Proof.
  apply load_history_last_wins.
  - apply List.Forall_cons; [vm_compute; discriminate|apply List.Forall_nil].
  - vm_compute. reflexivity.
Defined.

(** X25: what [save_history] writes when every write succeeds, one value
    per line in any order, is read back by [load_history] as exactly the
    dictionary it wrote. *)
Theorem save_history_reload (cfg : config) (file : list config) (open_ok : bool)
    (h : gmap ustr config) (ls : list config) :
  save_history cfg file open_ok = SaveWritten h -> ls ≡ₚ (map_to_list h).*2 -> load_history ls = h.
Proof.
  intros Hs Hp. apply load_history_values; [|exact Hp].
  unfold save_history in Hs. set (cf := filter _ cfg) in Hs.
  destruct (decide _); [discriminate|].
  destruct (generate_url cf) as [nu|] eqn:E; [|discriminate].
  destruct open_ok; cbn [negb] in Hs; [|discriminate].
  destruct (decide _); [|discriminate]. injection Hs as <-.
  intros u c. destruct (decide (u = nu)) as [->|Hne].
  - rewrite lookup_insert_eq. by intros [= <-].
  - rewrite lookup_insert_ne by congruence. apply load_history_keys_valid.
Qed.

Lemma save_history_reload_witness :
  match save_history (<["database" := []]> sample_config) [sample_config_ipv6; sample_config] true with
  | SaveWritten h => load_history (map_to_list h).*2 = h
  | _ => False
  end.
Proof.
  assert (W : match save_history (<["database" := []]> sample_config)
                    [sample_config_ipv6; sample_config] true with
              | SaveWritten _ => true | _ => false end = true) by (vm_compute; reflexivity).
  destruct (save_history (<["database" := []]> sample_config) [sample_config_ipv6; sample_config] true)
    as [| | | w |h] eqn:E; try discriminate W.
  exact (save_history_reload _ _ _ h _ E (Permutation_refl _)).
Defined.

(** X26: [save_history] leaves the history file as it was exactly when the
    host, the port or the user is missing or empty (the guard returns),
    when the user name, the password or the database name holds a lone
    surrogate ([_generate_url] raises), or when the file cannot be opened
    for writing. *)
Theorem save_history_file_untouched_iff (cfg : config) (file : list config) (open_ok : bool) :
  file_untouched (save_history cfg file open_ok) = true <->
  config_get cfg "host" [] = [] \/ config_get cfg "port" [] = [] \/ config_get cfg "user" [] = [] \/
  Exists (fun x => is_surrogate x = true)
    (config_get cfg "user" [] ++ config_get cfg "password" [] ++ config_get cfg "database" []) \/
  open_ok = false.
Proof.
  unfold save_history. rewrite <- !(config_get_filter_eq cfg).
  set (cf := filter _ cfg).
  destruct (decide _) as [H|H]; [cbn; tauto|].
  rewrite <- generate_url_none_surrogate.
  destruct (generate_url cf) as [nu|]; [|cbn; tauto].
  destruct open_ok; cbn [negb]; [|cbn; tauto].
  destruct (decide _); cbn; (split; [discriminate|]); intros; exfalso; intuition congruence.
Qed.



(** X27: selecting a URL of the loaded history fills the form with the
    fields of its configuration, under the conditions of X17. *)
Theorem quick_link_fill_history (lines : list config) (u : ustr) (c : config) :
  url_safe_config c = true -> load_history lines !! u = Some c ->
  quick_link_fill (load_history lines) u = Some (config_form c).
Proof.
  intros Hs Hl. pose proof (load_history_keys_valid _ _ _ Hl) as Hg.
  pose proof (parse_generated_safe c u Hs Hg) as Hp.
  unfold quick_link_fill. destruct u as [|x u'].
  { exfalso. assert (E : parse_url [] = ∅) by reflexivity.
    rewrite E in Hp. symmetry in Hp. by apply url_config_nonempty in Hp. }
  rewrite Hl. destruct (decide (parse_url (x :: u') = ∅)) as [E|E].
  { rewrite Hp in E. by apply url_config_nonempty in E. }
  f_equal. exact (parse_generated_form c _ Hs Hg).
Qed.

Lemma quick_link_fill_history_witness :
  quick_link_fill (load_history [sample_config]) (default [] (generate_url sample_config))
  = Some (config_form sample_config).
Proof. apply quick_link_fill_history; vm_compute; reflexivity. Defined.

Local Close Scope N_scope.

